(** * LocalFiles MCP server: path authorisation, listing and reading

    A shallow embedding of [app.py] and of the parts of the Python
    standard library and of the POSIX file system it calls, followed by
    the properties of the specification.

    Conventions.
    - A Python [str] that names a path, a configuration key or a
      configuration value is a Rocq [string]; the model is exact for ASCII
      text.  The text read from a file by [lf_read_file] is a list of
      Unicode code points.
    - The raw content of a file is a [list byte].
    - A Python exception is the [Raise] case of [result]. *)

From Stdlib Require Import ZArith NArith Lia.
From Stdlib.Strings Require Import Ascii Byte.
From stdpp Require Import base tactics option list strings gmap.

Local Open Scope Z_scope.

(** ** Exceptions *)

Inductive exn :=
  | ValueError (msg : string)
  | OSError (msg : string)
  | UnicodeDecodeError.

Inductive result (A : Type) :=
  | Ok (a : A)
  | Raise (e : exn).
Arguments Ok {A} a.
Arguments Raise {A} e.

Definition rbind {A B} (m : result A) (k : A → result B) : result B :=
  match m with
  | Ok a => k a
  | Raise e => Raise e
  end.

Notation "'let!' x ':=' m 'in' k" := (rbind m (λ x, k))
  (at level 10, x name, m at level 100, k at level 200, only parsing).

(** ** Python string methods *)

Module PyStr.

Definition LF : ascii := "010"%char.
Definition CR : ascii := "013"%char.
Definition dquote : ascii := "034"%char.
Definition squote : ascii := "039"%char.

(** [str.isspace] on ASCII: tab, LF, VT, FF, CR, the four separators
    FS GS RS US, and the blank. *)
Definition is_space (c : ascii) : bool :=
  let n := N_of_ascii c in
  ((9 <=? n) && (n <=? 13) || (28 <=? n) && (n <=? 32))%N.

Definition is_quote (c : ascii) : bool :=
  bool_decide (c = dquote) || bool_decide (c = squote).

Fixpoint lstrip_by (p : ascii → bool) (s : string) : string :=
  match s with
  | String c s' => if p c then lstrip_by p s' else s
  | EmptyString => EmptyString
  end.

Fixpoint rstrip_by (p : ascii → bool) (s : string) : string :=
  match s with
  | EmptyString => EmptyString
  | String c s' =>
      match rstrip_by p s' with
      | EmptyString => if p c then EmptyString else String c EmptyString
      | t => String c t
      end
  end.

Definition strip_by (p : ascii → bool) (s : string) : string :=
  rstrip_by p (lstrip_by p s).

(** [s.strip()] *)
Definition strip : string → string := strip_by is_space.

(** [s.strip(q)] with [q] the two quote characters *)
Definition strip_quotes : string → string := strip_by is_quote.

(** [s.startswith(c)] for a one-character [c] *)
Definition startswith (c : ascii) (s : string) : bool :=
  match s with
  | String c' _ => bool_decide (c' = c)
  | EmptyString => false
  end.

(** [c in s] for a one-character [c] *)
Fixpoint contains (c : ascii) (s : string) : bool :=
  match s with
  | EmptyString => false
  | String c' s' => bool_decide (c' = c) || contains c s'
  end.

(** [s.split(c)]: never the empty list. *)
Fixpoint split (sep : ascii) (s : string) : list string :=
  match s with
  | EmptyString => [EmptyString]
  | String c s' =>
      if bool_decide (c = sep) then EmptyString :: split sep s'
      else match split sep s' with
           | h :: t => String c h :: t
           | [] => [String c EmptyString]
           end
  end.

(** [s.split(c, 1)] when [c in s]: the text before the first [c] and the
    text after it. *)
Fixpoint split_once (sep : ascii) (s : string) : string * string :=
  match s with
  | EmptyString => (EmptyString, EmptyString)
  | String c s' =>
      if bool_decide (c = sep) then (EmptyString, s')
      else let '(k, v) := split_once sep s' in (String c k, v)
  end.

Definition lower_char (c : ascii) : ascii :=
  let n := N_of_ascii c in
  if ((65 <=? n) && (n <=? 90))%N then ascii_of_N (n + 32) else c.

(** [s.lower()] *)
Fixpoint lower (s : string) : string :=
  match s with
  | EmptyString => EmptyString
  | String c s' => String (lower_char c) (lower s')
  end.

(** [sep.join(l)] *)
Fixpoint join (sep : string) (l : list string) : string :=
  match l with
  | [] => ""
  | [x] => x
  | x :: l' => x +:+ sep +:+ join sep l'
  end.

Definition digit (c : ascii) : option Z :=
  let n := N_of_ascii c in
  if ((48 <=? n) && (n <=? 57))%N then Some (Z.of_N n - 48) else None.

(** The digits of a decimal literal: single underscores are allowed
    between digits. [seen] says whether the previous character was a
    digit. *)
Fixpoint digits_value (acc : Z) (seen : bool) (s : string) : option Z :=
  match s with
  | EmptyString => if seen then Some acc else None
  | String c s' =>
      match digit c with
      | Some d => digits_value (10 * acc + d) true s'
      | None =>
          if bool_decide (c = "_"%char) && seen
          then match s' with
               | EmptyString => None
               | _ => digits_value acc false s'
               end
          else None
      end
  end.

(** [int(s)]: blanks around, an optional sign, decimal digits.
    [None] stands for the [ValueError]. *)
Definition int (s : string) : option Z :=
  match strip s with
  | String "-" t => Z.opp <$> digits_value 0 false t
  | String "+" t => digits_value 0 false t
  | t => digits_value 0 false t
  end.

(** Universal newlines of a text-mode [open]: CR LF and a lone CR are
    read as LF.  Written over any character type. *)
Fixpoint translate_newlines {A} (is_cr is_lf : A → bool) (lf : A)
    (l : list A) : list A :=
  match l with
  | [] => []
  | c :: l' =>
      if is_cr c then
        match l' with
        | d :: l'' =>
            if is_lf d then lf :: translate_newlines is_cr is_lf lf l''
            else lf :: translate_newlines is_cr is_lf lf l'
        | [] => [lf]
        end
      else c :: translate_newlines is_cr is_lf lf l'
  end.

Definition text_newlines (s : string) : string :=
  String.string_of_list_ascii
    (translate_newlines (λ c, bool_decide (c = CR))
       (λ c, bool_decide (c = LF)) LF (String.list_ascii_of_string s)).

(** The lines of a text, each with its terminator, as iterating over a
    file object yields them. *)
Fixpoint splitlines_keepends (s : string) : list string :=
  match s with
  | EmptyString => []
  | String c s' =>
      if bool_decide (c = LF) then String LF EmptyString :: splitlines_keepends s'
      else match splitlines_keepends s' with
           | [] => [String c EmptyString]
           | l :: ls => String c l :: ls
           end
  end.

Definition readlines (s : string) : list string :=
  splitlines_keepends (text_newlines s).

End PyStr.

(** ** pathlib: pure POSIX paths *)

(** A path is its root flag and its components.  A path that starts with
    exactly two slashes, which POSIX lets an implementation read in its own
    way, is read as an absolute path like any other. *)
Record PurePath := mkPath { absolute : bool; parts : list string }.

Global Instance PurePath_eq_dec : EqDecision PurePath.
Proof. solve_decision. Defined.

Module PurePath.

Definition is_component (seg : string) : bool :=
  negb (bool_decide (seg = "")) && negb (bool_decide (seg = ".")).

Definition components (s : string) : list string :=
  List.filter is_component (PyStr.split "/"%char s).

(** [Path(s)]: empty components and [.] are dropped, [..] is kept. *)
Definition Path (s : string) : PurePath :=
  mkPath (PyStr.startswith "/"%char s) (components s).

(** [str(p)] *)
Definition str (p : PurePath) : string :=
  if absolute p then "/" +:+ PyStr.join "/" (parts p)
  else match parts p with
       | [] => "."
       | _ => PyStr.join "/" (parts p)
       end.

(** [p.name] *)
Definition name (p : PurePath) : string := List.last (parts p) "".

(** The text of [s] from its last dot on. *)
Fixpoint last_dot (s : string) : option string :=
  match s with
  | EmptyString => None
  | String c s' =>
      match last_dot s' with
      | Some t => Some t
      | None => if bool_decide (c = "."%char) then Some s else None
      end
  end.

(** [p.suffix]: the last dot of the name must be neither its first nor
    its last character. *)
Definition suffix (p : PurePath) : string :=
  match last_dot (name p) with
  | Some t =>
      if bool_decide (t = name p) || bool_decide (t = ".") then "" else t
  | None => ""
  end.

(** [p / rel] for a relative [rel] given by its components *)
Definition joinparts (p : PurePath) (rel : list string) : PurePath :=
  mkPath (absolute p) (parts p ++ rel).

Fixpoint starts_with (pre l : list string) : bool :=
  match pre, l with
  | [], _ => true
  | a :: pre', b :: l' => bool_decide (a = b) && starts_with pre' l'
  | _ :: _, [] => false
  end.

(** [p.relative_to(other)]: [None] stands for the [ValueError]. *)
Definition relative_to (p other : PurePath) : option PurePath :=
  if bool_decide (absolute p = absolute other)
     && starts_with (parts other) (parts p)
  then Some (mkPath false (drop (length (parts other)) (parts p)))
  else None.

End PurePath.

(** ** The file system *)

(** A directory lists its entries in the order [scandir] gives them. *)
#[warnings="-register-all"]
Inductive node :=
  | File (data : list byte) (mtime : Z)
  | Dir (size mtime : Z) (entries : list (string * node))
  | Symlink (target : string).

Inductive file_kind := S_IFREG | S_IFDIR | S_IFLNK.

Global Instance file_kind_eq_dec : EqDecision file_kind.
Proof. solve_decision. Defined.

(** What [os.stat] gives, as far as [app.py] reads it.  [st_mtime], a float
    in Python, is only copied into the results: it is kept as an integer. *)
Record stat_result := mkStat { st_kind : file_kind; st_size : Z; st_mtime : Z }.

(** What the process sees of its surroundings: the tree under [/], the
    working directory (a canonical absolute path) and [os.environ]. *)
Record os_state := mkOS {
  fs_root : node;
  cwd : list string;
  environ : gmap string string
}.

Module FS.

Fixpoint entry_lookup (name : string) (es : list (string * node)) : option node :=
  match es with
  | [] => None
  | (n, c) :: es' => if bool_decide (n = name) then Some c else entry_lookup name es'
  end.

(** The node at a path given by its components from the root, no link
    followed: [lstat] of a path whose directories are already resolved. *)
Fixpoint lookup_path (n : node) (segs : list string) : option node :=
  match segs with
  | [] => Some n
  | s :: segs' =>
      match n with
      | Dir _ _ es =>
          match entry_lookup s es with
          | Some c => lookup_path c segs'
          | None => None
          end
      | _ => None
      end
  end.

Definition stat_of (n : node) : stat_result :=
  match n with
  | File data mtime => mkStat S_IFREG (Z.of_nat (length data)) mtime
  | Dir size mtime _ => mkStat S_IFDIR size mtime
  | Symlink target => mkStat S_IFLNK (Z.of_nat (String.length target)) 0
  end.

Definition link_start (cur : list string) (target : string) : list string :=
  if PyStr.startswith "/"%char target then [] else cur.

(** Path lookup as the kernel does it, every link followed: the canonical
    path of the file named by [rest] from the directory [cur].  [None] is
    a failing lookup (ENOENT, ENOTDIR, ELOOP).  The kernel bounds the
    links followed in one lookup; [fuel] bounds their nesting. *)
Fixpoint namei (fuel : nat) (root : node) (cur rest : list string)
    : option (list string) :=
  match fuel with
  | O => None
  | S fuel' =>
      (fix walk (cur rest : list string) {struct rest} : option (list string) :=
         match rest with
         | [] => Some cur
         | name :: rest' =>
             match lookup_path root cur with
             | Some (Dir _ _ es) =>
                 if bool_decide (name = "..") then walk (removelast cur) rest'
                 else
                   match entry_lookup name es with
                   | None => None
                   | Some (Symlink target) =>
                       if bool_decide (target = "") then None
                       else
                         match namei fuel' root (link_start cur target)
                                 (PurePath.components target) with
                         | Some cur' => walk cur' rest'
                         | None => None
                         end
                   | Some _ => walk (cur ++ [name]) rest'
                   end
             | _ => None
             end
         end) cur rest
  end.

Definition link_budget : nat := 40.

Definition start (w : os_state) (p : PurePath) : list string :=
  if absolute p then [] else cwd w.

(** The node a path names, links followed. *)
Definition follow (w : os_state) (p : PurePath) : option node :=
  c ← namei link_budget (fs_root w) (start w p) (parts p);
  lookup_path (fs_root w) c.

(** [p.stat()]: [None] stands for the [OSError]. *)
Definition stat (w : os_state) (p : PurePath) : option stat_result :=
  stat_of <$> follow w p.

(** [p.exists()], [p.is_dir()], [p.is_file()] *)
Definition exists_ (w : os_state) (p : PurePath) : bool :=
  bool_decide (is_Some (stat w p)).

Definition is_dir (w : os_state) (p : PurePath) : bool :=
  match stat w p with
  | Some st => bool_decide (st_kind st = S_IFDIR)
  | None => false
  end.

Definition is_file (w : os_state) (p : PurePath) : bool :=
  match stat w p with
  | Some st => bool_decide (st_kind st = S_IFREG)
  | None => false
  end.

(** [os.path.normpath] on the components of an absolute path. *)
Definition normpath (segs : list string) : list string :=
  foldl (λ acc s, if bool_decide (s = "..") then removelast acc else acc ++ [s])
    [] segs.

(** [posixpath._joinrealpath], not strict: links are expanded from left
    to right; a component that does not exist is kept as it is written;
    [..] drops the last component of what is resolved so far.  [seen]
    holds the links under expansion: meeting one of them again is a
    cycle, and the walk stops with the rest of the path left as it is.
    [fuel] bounds the nesting of the expansions: each nested call adds a
    link to [seen], so a bound above the number of links of the tree is
    not reached (lemma [joinrealpath_fuel] below). *)
Fixpoint joinrealpath (fuel : nat) (root : node) (seen : list (list string))
    (path rest : list string) : list string * bool :=
  match fuel with
  | O => (path ++ rest, false)
  | S fuel' =>
      (fix loop (path rest : list string) {struct rest} : list string * bool :=
         match rest with
         | [] => (path, true)
         | name :: rest' =>
             if bool_decide (name = "..") then loop (removelast path) rest'
             else
               let newpath := path ++ [name] in
               match lookup_path root newpath with
               | Some (Symlink target) =>
                   if bool_decide (newpath ∈ seen) then (newpath ++ rest', false)
                   else
                     match joinrealpath fuel' root (newpath :: seen)
                             (link_start path target)
                             (PurePath.components target) with
                     | (p, true) => loop p rest'
                     | (p, false) => (p ++ rest', false)
                     end
               | _ => loop newpath rest'
               end
         end) path rest
  end.

(** The paths of the links of a tree. *)
Fixpoint link_paths (n : node) : list (list string) :=
  match n with
  | File _ _ => []
  | Symlink _ => [[]]
  | Dir _ _ es =>
      (fix go (l : list (string * node)) : list (list string) :=
         match l with
         | [] => []
         | (nm, c) :: l' => (cons nm <$> link_paths c) ++ go l'
         end) es
  end.

(** [p.resolve()]: the canonical absolute path.  On a cycle of links
    pathlib before 3.13 raises [RuntimeError]; from 3.13 on it returns
    what [realpath] returns, which is what is modelled. *)
Definition resolve (w : os_state) (p : PurePath) : PurePath :=
  mkPath true
    (normpath
       (joinrealpath (S (length (link_paths (fs_root w)))) (fs_root w) []
          (start w p) (parts p)).1).

(** The directories visited by the recursive wildcard, each with its
    entries, the starting directory first: a directory entry is entered,
    a link to a directory is not. *)
Fixpoint iterate_directories (n : node) (rel : list string)
    : list (list string * list (string * node)) :=
  match n with
  | Dir _ _ es =>
      (rel, es) ::
      (fix children (l : list (string * node)) :=
         match l with
         | [] => []
         | (nm, c) :: l' => iterate_directories c (rel ++ [nm]) ++ children l'
         end) es
  | _ => []
  end.

(** The paths, relative to the starting directory, that [rglob('*')]
    yields: every entry of every visited directory. *)
Definition rglob_rel (n : node) : list (list string) :=
  '(rel, es) ← iterate_directories n [];
  (λ e, rel ++ [e.1]) <$> es.

(** [p.rglob('*')] *)
Definition rglob (w : os_state) (p : PurePath) : list PurePath :=
  match follow w p with
  | Some n => PurePath.joinparts p <$> rglob_rel n
  | None => []
  end.

End FS.

(** ** Text and base64 codecs *)

Module Codec.

Local Open Scope N_scope.

(** The payload of a UTF-8 continuation byte. *)
Definition cont (b : byte) : option N :=
  let n := Byte.to_N b in
  if (128 <=? n) && (n <=? 191) then Some (n - 128) else None.

(** Strict UTF-8, as the [utf-8] codec decodes it: no overlong form, no
    surrogate, nothing above U+10FFFF, no truncated sequence.  [None]
    stands for the [UnicodeDecodeError]. *)
Fixpoint utf8_decode (bs : list byte) : option (list N) :=
  match bs with
  | [] => Some []
  | b0 :: r0 =>
      let n0 := Byte.to_N b0 in
      if n0 <? 128 then cons n0 <$> utf8_decode r0
      else if (194 <=? n0) && (n0 <=? 223) then
        match r0 with
        | b1 :: r1 =>
            match cont b1 with
            | Some c1 => cons ((n0 - 192) * 64 + c1) <$> utf8_decode r1
            | None => None
            end
        | _ => None
        end
      else if (224 <=? n0) && (n0 <=? 239) then
        match r0 with
        | b1 :: b2 :: r2 =>
            match cont b1, cont b2 with
            | Some c1, Some c2 =>
                let cp := (n0 - 224) * 4096 + c1 * 64 + c2 in
                if (2048 <=? cp) && negb ((55296 <=? cp) && (cp <=? 57343))
                then cons cp <$> utf8_decode r2
                else None
            | _, _ => None
            end
        | _ => None
        end
      else if (240 <=? n0) && (n0 <=? 244) then
        match r0 with
        | b1 :: b2 :: b3 :: r3 =>
            match cont b1, cont b2, cont b3 with
            | Some c1, Some c2, Some c3 =>
                let cp := (n0 - 240) * 262144 + c1 * 4096 + c2 * 64 + c3 in
                if (65536 <=? cp) && (cp <=? 1114111)
                then cons cp <$> utf8_decode r3
                else None
            | _, _, _ => None
            end
        | _ => None
        end
      else None
  end.

(** What [open(path, 'r', encoding='utf-8').read()] returns: the decoded
    text with universal newlines. *)
Definition read_text (bs : list byte) : option (list N) :=
  PyStr.translate_newlines (N.eqb 13) (N.eqb 10) 10 <$> utf8_decode bs.

Definition alphabet : string :=
  "ABCDEFGHIJKLMNOPQRSTUVWXYZabcdefghijklmnopqrstuvwxyz0123456789+/".

Definition pad : ascii := "="%char.

Definition b64char (n : N) : ascii :=
  match String.get (N.to_nat n) alphabet with
  | Some c => c
  | None => pad
  end.

Definition b64val (c : ascii) : option N :=
  let n := N_of_ascii c in
  if (65 <=? n) && (n <=? 90) then Some (n - 65)
  else if (97 <=? n) && (n <=? 122) then Some (n - 71)
  else if (48 <=? n) && (n <=? 57) then Some (n + 4)
  else if n =? 43 then Some 62
  else if n =? 47 then Some 63
  else None.

(** [base64.b64encode]: three bytes give four characters of six bits
    each; a last group of one or two bytes is padded. *)
Fixpoint b64encode (bs : list byte) : string :=
  match bs with
  | [] => ""
  | [a] =>
      let x := Byte.to_N a in
      String (b64char (x / 4)) (String (b64char (x mod 4 * 16))
        (String pad (String pad "")))
  | [a; b] =>
      let x := Byte.to_N a in
      let y := Byte.to_N b in
      String (b64char (x / 4)) (String (b64char (x mod 4 * 16 + y / 16))
        (String (b64char (y mod 16 * 4)) (String pad "")))
  | a :: b :: c :: r =>
      let x := Byte.to_N a in
      let y := Byte.to_N b in
      let z := Byte.to_N c in
      String (b64char (x / 4)) (String (b64char (x mod 4 * 16 + y / 16))
        (String (b64char (y mod 16 * 4 + z / 64)) (String (b64char (z mod 64))
          (b64encode r))))
  end.

(** [base64.b64decode] on padded text of the standard alphabet. *)
Fixpoint b64decode (s : string) : option (list byte) :=
  match s with
  | EmptyString => Some []
  | String c0 (String c1 (String c2 (String c3 r))) =>
      v0 ← b64val c0;
      v1 ← b64val c1;
      b0 ← Byte.of_N (v0 * 4 + v1 / 16);
      if bool_decide (c3 = pad) then
        if bool_decide (r = "") then
          if bool_decide (c2 = pad) then Some [b0]
          else
            v2 ← b64val c2;
            b1 ← Byte.of_N (v1 mod 16 * 16 + v2 / 4);
            Some [b0; b1]
        else None
      else
        v2 ← b64val c2;
        v3 ← b64val c3;
        b1 ← Byte.of_N (v1 mod 16 * 16 + v2 / 4);
        b2 ← Byte.of_N (v2 mod 4 * 64 + v3);
        rest ← b64decode r;
        Some (b0 :: b1 :: b2 :: rest)
  | _ => None
  end.

(** [s.decode('ascii')] and the ASCII text inside a Python [str]. *)
Definition code_points (s : string) : list N :=
  N_of_ascii <$> String.list_ascii_of_string s.

Definition ascii_text (cps : list N) : string :=
  String.string_of_list_ascii (ascii_of_N <$> cps).

End Codec.

(** The [utf-8] codec in the other direction, [s.encode('utf-8')], for
    code points that are not surrogates and not above U+10FFFF: one to
    four bytes for each. *)
Definition byte_of (n : N) : byte := default x00 (Byte.of_N n).

Definition utf8_encode_point (cp : N) : list byte :=
  (if cp <? 128 then [byte_of cp]
   else if cp <? 2048 then [byte_of (192 + cp / 64); byte_of (128 + cp mod 64)]
   else if cp <? 65536 then
     [byte_of (224 + cp / 4096); byte_of (128 + cp / 64 mod 64);
      byte_of (128 + cp mod 64)]
   else
     [byte_of (240 + cp / 262144); byte_of (128 + cp / 4096 mod 64);
      byte_of (128 + cp / 64 mod 64); byte_of (128 + cp mod 64)])%N.

Definition utf8_encode (cps : list N) : list byte :=
  cps ≫= utf8_encode_point.

(** ** app.py *)

Record config := mkConfig {
  allowed_directories : list string;
  max_file_size : Z;
  allowed_extensions : list string
}.

Definition default_config : config :=
  mkConfig [] (10 * 1024 * 1024)
    [".txt"; ".md"; ".py"; ".js"; ".json"; ".yaml"; ".yml"; ".csv"; ".xml";
     ".html"; ".css"].

Definition with_allowed_directories (c : config) (l : list string) : config :=
  mkConfig l (max_file_size c) (allowed_extensions c).
Definition with_max_file_size (c : config) (n : Z) : config :=
  mkConfig (allowed_directories c) n (allowed_extensions c).
Definition with_allowed_extensions (c : config) (l : list string) : config :=
  mkConfig (allowed_directories c) (max_file_size c) l.

(** Truth value of a Python [str] *)
Definition nonempty (s : string) : bool := negb (bool_decide (s = "")).

(** [[d.strip() for d in value.split(',') if d.strip()]] *)
Definition parse_list (value : string) : list string :=
  PyStr.strip <$>
    List.filter (λ d, nonempty (PyStr.strip d)) (PyStr.split ","%char value).

(** [int(value)] *)
Definition parse_int (value : string) : result Z :=
  match PyStr.int value with
  | Some n => Ok n
  | None => Raise (ValueError ("invalid literal for int() with base 10: " +:+ value))
  end.

(** The setting of one recognised key; other keys leave the configuration
    as it is. *)
Definition set_key (c : config) (key value : string) : result config :=
  if bool_decide (key = "ALLOWED_DIRECTORIES") then
    Ok (with_allowed_directories c (parse_list value))
  else if bool_decide (key = "MAX_FILE_SIZE") then
    let! n := parse_int value in Ok (with_max_file_size c n)
  else if bool_decide (key = "ALLOWED_EXTENSIONS") then
    Ok (with_allowed_extensions c (parse_list value))
  else Ok c.

(** The body of the loop over the lines of [.env]. *)
Definition apply_line (c : config) (line : string) : result config :=
  let line := PyStr.strip line in
  if nonempty line && negb (PyStr.startswith "#"%char line) then
    if PyStr.contains "="%char line then
      let '(key, value) := PyStr.split_once "="%char line in
      let key := PyStr.strip key in
      let value := PyStr.strip_quotes (PyStr.strip value) in
      set_key c key value
    else Ok c
  else Ok c.

Definition apply_lines (c : config) (lines : list string) : result config :=
  foldl (λ acc line, let! c := acc in apply_line c line) (Ok c) lines.

(** The settings file is opened in the encoding of the locale; its text is
    taken to be its bytes, one character each. *)
Definition env_file : PurePath := PurePath.Path ".env".

Definition load_env_file (w : os_state) (c : config) : result config :=
  if FS.exists_ w env_file then
    match FS.follow w env_file with
    | Some (File data _) =>
        apply_lines c (PyStr.readlines (String.string_of_list_byte data))
    | _ => Raise (OSError "Is a directory: '.env'")
    end
  else Ok c.

(** [os.getenv(key)] *)
Definition getenv (w : os_state) (key : string) : option string :=
  environ w !! key.

(** [if os.getenv(key):] gives the value when it is set and not empty. *)
Definition getenv_set (w : os_state) (key : string) : option string :=
  match getenv w key with
  | Some v => if nonempty v then Some v else None
  | None => None
  end.

Definition load_config (w : os_state) : result config :=
  let! c := load_env_file w default_config in
  let c :=
    match getenv_set w "ALLOWED_DIRECTORIES" with
    | Some v => with_allowed_directories c (parse_list v)
    | None => c
    end in
  let! c :=
    match getenv_set w "MAX_FILE_SIZE" with
    | Some v => let! n := parse_int v in Ok (with_max_file_size c n)
    | None => Ok c
    end in
  let c :=
    match getenv_set w "ALLOWED_EXTENSIONS" with
    | Some v => with_allowed_extensions c (parse_list v)
    | None => c
    end in
  Ok c.

Definition is_file_allowed (w : os_state) (file_path : PurePath) (c : config) : bool :=
  match FS.stat w file_path with
  | None => false
  | Some st =>
      if st_size st >? max_file_size c then false
      else if negb (bool_decide (allowed_extensions c = []))
              && negb (bool_decide
                         (PyStr.lower (PurePath.suffix file_path) ∈ allowed_extensions c))
      then false
      else true
  end.

Definition is_path_allowed (w : os_state) (file_path : string) (c : config) : bool :=
  let file_path := FS.resolve w (PurePath.Path file_path) in
  (fix loop (dirs : list string) : bool :=
     match dirs with
     | [] => false
     | allowed_dir :: dirs' =>
         let allowed_path := FS.resolve w (PurePath.Path allowed_dir) in
         match PurePath.relative_to file_path allowed_path with
         | Some _ => true
         | None => loop dirs'
         end
     end) (allowed_directories c).

Module FileEntry.
Record t := mk {
  name : string;
  path : string;
  relative_path : string;
  size : Z;
  modified : Z;
  extension : string
}.
End FileEntry.

Inductive dir_report :=
  | DirError (directory error : string)
  | DirFiles (directory : string) (files : list FileEntry.t) (total_files : nat).

Inductive list_result :=
  | ListError (error : string)
  | Listing (allowed : list string) (directories : list dir_report)
      (total_directories : nat).

Definition exn_str (e : exn) : string :=
  match e with
  | ValueError msg => msg
  | OSError msg => msg
  | UnicodeDecodeError => "'utf-8' codec can't decode bytes"
  end.

(** The dictionary of one file. *)
Definition entry_of (file_path rel : PurePath) (st : stat_result) : FileEntry.t :=
  FileEntry.mk (PurePath.name file_path) (PurePath.str file_path)
    (PurePath.str rel) (st_size st) (st_mtime st) (PurePath.suffix file_path).

(** The dictionary appended for one file: [None] when [stat] fails, which
    the loop passes over; a failing [relative_to] leaves the loop. *)
Definition file_info (w : os_state) (path file_path : PurePath)
    : result (option FileEntry.t) :=
  match FS.stat w file_path with
  | None => Ok None
  | Some st =>
      match PurePath.relative_to file_path path with
      | None => Raise (ValueError "path is not in the subpath of the directory")
      | Some rel => Ok (Some (entry_of file_path rel st))
      end
  end.

(** The loop over [path.rglob('*')]. *)
Fixpoint collect_files (w : os_state) (c : config) (path : PurePath)
    (found : list PurePath) : result (list FileEntry.t) :=
  match found with
  | [] => Ok []
  | file_path :: found' =>
      if FS.is_file w file_path && is_file_allowed w file_path c then
        let! info := file_info w path file_path in
        let! rest := collect_files w c path found' in
        Ok (option_list info ++ rest)
      else collect_files w c path found'
  end.

(** The body of the loop over [directories_to_scan]. *)
Definition scan_directory (w : os_state) (c : config) (dir_path : string) : dir_report :=
  let path := PurePath.Path dir_path in
  if negb (FS.exists_ w path) then DirError dir_path "Directory does not exist"
  else if negb (FS.is_dir w path) then DirError dir_path "Path is not a directory"
  else
    match collect_files w c path (FS.rglob w path) with
    | Ok dir_files => DirFiles dir_path dir_files (length dir_files)
    | Raise e => DirError dir_path (exn_str e)
    end.

Definition not_configured : string :=
  "No allowed directories configured. Please set ALLOWED_DIRECTORIES in .env file.".

Definition listing (w : os_state) (c : config) (directories_to_scan : list string)
    : list_result :=
  let files_info := scan_directory w c <$> directories_to_scan in
  Listing (allowed_directories c) files_info (length files_info).

Definition lf_list_files (w : os_state) (directory_path : string) : result list_result :=
  let! c := load_config w in
  if bool_decide (allowed_directories c = []) then Ok (ListError not_configured)
  else if nonempty directory_path then
    if negb (is_path_allowed w directory_path c) then
      Ok (ListError ("Directory '" +:+ directory_path
                       +:+ "' is not in allowed directories."))
    else Ok (listing w c [directory_path])
  else Ok (listing w c (allowed_directories c)).

(** A call that leaves the argument out takes its default value. *)
Definition lf_list_files_call (w : os_state) (directory_path : option string)
    : result list_result :=
  lf_list_files w (default "" directory_path).

Module FileContent.
Record t := mk {
  file_path : string;
  name : string;
  size : Z;
  modified : Z;
  extension : string;
  content_type : string;
  content : list N
}.
End FileContent.

Inductive read_result :=
  | ReadError (error : string)
  | ReadOk (file : FileContent.t).

(** [open(path, mode)] then [f.read()] gives the bytes of a regular file. *)
Definition read_bytes (w : os_state) (path : PurePath) : result (list byte) :=
  match FS.follow w path with
  | Some (File data _) => Ok data
  | Some _ => Raise (OSError "Is a directory")
  | None => Raise (OSError "No such file or directory")
  end.

(** The text first, base64 of the bytes when the text does not decode. *)
Definition read_content (w : os_state) (path : PurePath)
    : result (string * list N) :=
  let! data := read_bytes w path in
  match Codec.read_text data with
  | Some content => Ok ("text", content)
  | None =>
      let! data := read_bytes w path in
      Ok ("binary_base64", Codec.code_points (Codec.b64encode data))
  end.

Definition lf_read_file (w : os_state) (file_path : string) : result read_result :=
  let! c := load_config w in
  if bool_decide (allowed_directories c = []) then Ok (ReadError not_configured)
  else if negb (is_path_allowed w file_path c) then
    Ok (ReadError ("File '" +:+ file_path +:+ "' is not in allowed directories."))
  else
    let path := PurePath.Path file_path in
    if negb (FS.exists_ w path) then Ok (ReadError "File does not exist.")
    else if negb (FS.is_file w path) then Ok (ReadError "Path is not a file.")
    else if negb (is_file_allowed w path c) then
      Ok (ReadError "File is not allowed (size or extension restrictions).")
    else
      let body :=
        let! read := read_content w path in
        match FS.stat w path with
        | Some st =>
            Ok (FileContent.mk (PurePath.str path) (PurePath.name path)
                  (st_size st) (st_mtime st) (PurePath.suffix path)
                  read.1 read.2)
        | None => Raise (OSError "No such file or directory")
        end in
      match body with
      | Ok file => Ok (ReadOk file)
      | Raise e => Ok (ReadError ("Error reading file: " +:+ exn_str e))
      end.

Record config_summary := mkSummary {
  summary_directories : list string;
  summary_max_file_size : Z;
  summary_extensions : list string;
  status : string
}.

Definition lf_get_config (w : os_state) : result config_summary :=
  let! c := load_config w in
  Ok (mkSummary (allowed_directories c) (max_file_size c) (allowed_extensions c)
        (if bool_decide (allowed_directories c = []) then "not_configured"
         else "configured")).

(** [repr] of a [str] of ASCII characters: single quotes, unless the text
    holds a single quote and no double quote; the quote in use and the
    backslash are escaped, and so are the control characters. *)
Definition backslash : ascii := "092"%char.

Definition hex_digit (n : N) : ascii :=
  match String.get (N.to_nat n) "0123456789abcdef" with
  | Some c => c
  | None => "0"%char
  end.

Definition repr_char (quote c : ascii) : string :=
  let n := N_of_ascii c in
  if bool_decide (c = quote) || bool_decide (c = backslash)
  then String backslash (String c "")
  else if bool_decide (c = "009"%char) then String backslash "t"
  else if bool_decide (c = PyStr.LF) then String backslash "n"
  else if bool_decide (c = PyStr.CR) then String backslash "r"
  else if ((n <? 32) || (n =? 127))%N
  then String backslash
         (String "x" (String (hex_digit (n / 16)) (String (hex_digit (n mod 16)) "")))
  else String c "".

Fixpoint repr_body (quote : ascii) (s : string) : string :=
  match s with
  | EmptyString => EmptyString
  | String c s' => repr_char quote c +:+ repr_body quote s'
  end.

Definition repr_str (s : string) : string :=
  let quote :=
    if PyStr.contains PyStr.squote s && negb (PyStr.contains PyStr.dquote s)
    then PyStr.dquote else PyStr.squote in
  String quote (repr_body quote s +:+ String quote "").

(** [repr] of a list of [str] *)
Definition repr_list (l : list string) : string :=
  "[" +:+ PyStr.join ", " (repr_str <$> l) +:+ "]".

(** The script run as a program: the lines it prints before it hands over
    to [mcp.run()], and the exception that ends it before that, if any. *)
Definition main (w : os_state) : list string * option exn :=
  let started := ["Starting LocalFiles MCP Server..."] in
  match load_config w with
  | Raise e => (started, Some e)
  | Ok c =>
      if bool_decide (allowed_directories c = []) then
        (started ++
           ["WARNING: No allowed directories configured!";
            "Please create a .env file with ALLOWED_DIRECTORIES setting.";
            "Example: ALLOWED_DIRECTORIES=/path/to/dir1,/path/to/dir2"],
         None)
      else
        (started ++ ["Allowed directories: " +:+ repr_list (allowed_directories c)],
         None)
  end.

(** ** Well-formed trees

    The name of a directory entry is not empty and holds no slash. *)

Definition valid_name (s : string) : bool :=
  nonempty s && negb (PyStr.contains "/"%char s).

Fixpoint wf_node (n : node) : bool :=
  match n with
  | Dir _ _ es =>
      (fix go (l : list (string * node)) : bool :=
         match l with
         | [] => true
         | (nm, c) :: l' => valid_name nm && wf_node c && go l'
         end) es
  | _ => true
  end.

(** A name that [Path] keeps as it is: a valid name other than [.]. *)
Definition proper_name (s : string) : bool :=
  valid_name s && PurePath.is_component s.

Fixpoint proper_tree (n : node) : bool :=
  match n with
  | Dir _ _ es =>
      (fix go (l : list (string * node)) : bool :=
         match l with
         | [] => true
         | (nm, c) :: l' => proper_name nm && proper_tree c && go l'
         end) es
  | _ => true
  end.

(** ** A sample installation

    The tree
<<
    /allowed/notes.txt          3 bytes of text
    /allowed/crlf.txt           text with a CR LF line end
    /allowed/blob.txt           3 bytes that are not UTF-8
    /allowed/link.txt           -> /secret/key.txt
    /allowed/sub/b.md
    /allowed2/x.txt
    /secret/key.txt
    /home/u/.env
    /home/u/data/a.txt
>>
    seen from the working directory [/home/u]. *)

Definition text_file (s : string) (mtime : Z) : node :=
  File (String.list_byte_of_string s) mtime.

Definition lines (l : list string) : string :=
  PyStr.join (String PyStr.LF "") l.

Definition quoted (s : string) : string :=
  String PyStr.dquote s +:+ String PyStr.dquote "".

Definition demo_env_file : string :=
  lines ["# settings";
         "";
         "ALLOWED_DIRECTORIES = '/allowed, data ,,/nonexistent'";
         "MAX_FILE_SIZE=1_000";
         "no equals sign here";
         "ALLOWED_EXTENSIONS=" +:+ quoted ".txt,.md";
         "OTHER=1"].

Definition demo_root : node :=
  Dir 4096 0
    [("allowed",
      Dir 4096 0
        [("notes.txt", text_file "abc" 11);
         ("crlf.txt", File [x61; x0d; x0a; x62] 12);
         ("blob.txt", File [xff; xfe; x00] 13);
         ("link.txt", Symlink "/secret/key.txt");
         ("sub", Dir 4096 0 [("b.md", text_file "# b" 14)])]);
     ("allowed2", Dir 4096 0 [("x.txt", text_file "x" 15)]);
     ("secret", Dir 4096 0 [("key.txt", text_file "top secret" 16)]);
     ("home",
      Dir 4096 0
        [("u",
          Dir 4096 0
            [(".env", text_file demo_env_file 17);
             ("data", Dir 4096 0 [("a.txt", text_file "a" 18)])])])].

Definition demo (env : gmap string string) : os_state :=
  mkOS demo_root ["home"; "u"] env.

(** The same tree seen from [/], where there is no settings file. *)
Definition bare (env : gmap string string) : os_state :=
  mkOS demo_root [] env.

(** * Properties *)

(** ** Strings *)

Section strip_facts.
Variable p : ascii → bool.

Lemma rstrip_by_idem s : PyStr.rstrip_by p (PyStr.rstrip_by p s) = PyStr.rstrip_by p s.
Proof.
  induction s as [|c s IH]; simpl; [done|].
  destruct (PyStr.rstrip_by p s) as [|d r] eqn:E.
  - destruct (p c) eqn:Hc; simpl; [done|]. by rewrite Hc.
  - simpl. simpl in IH. by rewrite IH.
Qed.

Lemma rstrip_by_head c s :
  p c = false → ∃ r, PyStr.rstrip_by p (String c s) = String c r.
Proof.
  intros Hc. simpl. destruct (PyStr.rstrip_by p s); [rewrite Hc|]; eauto.
Qed.

Lemma lstrip_by_head s c r : PyStr.lstrip_by p s = String c r → p c = false.
Proof.
  induction s as [|d s IH]; simpl; [done|].
  destruct (p d) eqn:Hd; [done|]. by intros [= <- _].
Qed.

Lemma lstrip_by_fix c s : p c = false → PyStr.lstrip_by p (String c s) = String c s.
Proof. intros Hc. simpl. by rewrite Hc. Qed.

(** What is left after stripping starts with a character that is kept. *)
Lemma strip_by_head s c r : PyStr.strip_by p s = String c r → p c = false.
Proof.
  unfold PyStr.strip_by. destruct (PyStr.lstrip_by p s) as [|d u] eqn:E; [done|].
  pose proof (lstrip_by_head _ _ _ E) as Hd.
  destruct (rstrip_by_head d u Hd) as [r' ->]. by intros [= <- _].
Qed.

Lemma rstrip_by_last s r c : PyStr.rstrip_by p s = r +:+ String c "" → p c = false.
Proof.
  revert r. induction s as [|d s IH]; intros r; simpl.
  - by destruct r.
  - destruct (PyStr.rstrip_by p s) as [|e t] eqn:E.
    + destruct (p d) eqn:Hd; [by destruct r|].
      destruct r as [|x [|??]]; simpl; [by intros [= <-]|done..].
    + destruct r as [|x r]; simpl; [done|].
      intros [= _ H]. by apply (IH r).
Qed.

(** ... and ends with one. *)
Lemma strip_by_last s r c : PyStr.strip_by p s = r +:+ String c "" → p c = false.
Proof. apply rstrip_by_last. Qed.

Lemma strip_by_idem s : PyStr.strip_by p (PyStr.strip_by p s) = PyStr.strip_by p s.
Proof.
  unfold PyStr.strip_by at 1.
  destruct (PyStr.strip_by p s) as [|c r] eqn:E; [done|].
  rewrite lstrip_by_fix by eauto using strip_by_head.
  rewrite <-E. apply rstrip_by_idem.
Qed.
End strip_facts.

Lemma lower_char_idem c : PyStr.lower_char (PyStr.lower_char c) = PyStr.lower_char c.
Proof. by destruct c as [[] [] [] [] [] [] [] []]. Qed.

Lemma lower_idem s : PyStr.lower (PyStr.lower s) = PyStr.lower s.
Proof. induction s; simpl; [done|]. by rewrite lower_char_idem, IHs. Qed.

(** The entries of a parsed list are trimmed and none is empty. *)
Lemma parse_list_trimmed value e :
  e ∈ parse_list value → e ≠ "" ∧ PyStr.strip e = e.
Proof.
  unfold parse_list. intros (d & -> & Hd)%list_elem_of_fmap.
  apply list_elem_of_In, filter_In in Hd as [_ Hd].
  unfold nonempty in Hd. apply negb_true_iff, bool_decide_eq_false in Hd.
  split; [done|]. apply strip_by_idem.
Qed.

Lemma contains_app_sep sep k v :
  PyStr.contains sep (k +:+ String sep v) = true.
Proof.
  induction k as [|c k IH]; simpl.
  - by rewrite bool_decide_eq_true_2.
  - rewrite IH. apply orb_true_r.
Qed.

Lemma split_once_app_sep sep k v :
  PyStr.contains sep k = false →
  PyStr.split_once sep (k +:+ String sep v) = (k, v).
Proof.
  induction k as [|c k IH]; simpl; intros Hk.
  - by rewrite bool_decide_eq_true_2.
  - apply orb_false_iff in Hk as [Hc Hk]. rewrite Hc, (IH Hk). done.
Qed.

(** ** The policy on files *)

Lemma is_file_allowed_stat w file_path c :
  is_file_allowed w file_path c = true →
  ∃ st, FS.stat w file_path = Some st ∧ st_size st ≤ max_file_size c.
Proof.
  unfold is_file_allowed. destruct (FS.stat w file_path) as [st|]; [|done].
  destruct (st_size st >? max_file_size c) eqn:E; [done|]. intros _.
  exists st. split; [done|]. lia.
Qed.

Lemma is_file_allowed_extension w file_path c :
  is_file_allowed w file_path c = true →
  allowed_extensions c = [] ∨
  PyStr.lower (PurePath.suffix file_path) ∈ allowed_extensions c.
Proof.
  unfold is_file_allowed. destruct (FS.stat w file_path) as [st|]; [|done].
  destruct (st_size st >? max_file_size c); [done|].
  repeat case_bool_decide; simpl; try done; auto.
Qed.

(** C3. With a non-empty [allowed_extensions], a file whose lower-cased
    suffix is not in the list is refused (so is one whose suffix matches
    no entry of the list when both are compared in lower case); with an
    empty list, a file of any suffix whose size is within the limit is
    allowed. *)
Theorem C3_is_file_allowed_extension w file_path c :
  (allowed_extensions c ≠ [] →
   PyStr.lower (PurePath.suffix file_path) ∉ allowed_extensions c →
   is_file_allowed w file_path c = false) ∧
  (allowed_extensions c ≠ [] →
   (∀ e, e ∈ allowed_extensions c →
         PyStr.lower e ≠ PyStr.lower (PurePath.suffix file_path)) →
   is_file_allowed w file_path c = false) ∧
  (allowed_extensions c = [] →
   ∀ st, FS.stat w file_path = Some st → st_size st ≤ max_file_size c →
         is_file_allowed w file_path c = true).
Proof.
  assert (allowed_extensions c ≠ [] →
          PyStr.lower (PurePath.suffix file_path) ∉ allowed_extensions c →
          is_file_allowed w file_path c = false) as Hmiss.
  { intros Hne Hnot. apply not_true_is_false. intros Hok.
    destruct (is_file_allowed_extension _ _ _ Hok); done. }
  split_and!; [done| |].
  - intros Hne Hfold. apply Hmiss; [done|]. intros Hin.
    apply (Hfold _ Hin). apply lower_idem.
  - intros Hnil st Hst Hsize. unfold is_file_allowed. rewrite Hst, Hnil.
    destruct (st_size st >? max_file_size c) eqn:E; [lia|done].
Qed.

Lemma C3_is_file_allowed_extension_witness :
  is_file_allowed (demo ∅) (PurePath.Path "/allowed/sub/b.md")
    (mkConfig [] 100 [".txt"]) = false ∧
  is_file_allowed (demo ∅) (PurePath.Path "/allowed/sub/b.md")
    (mkConfig [] 100 [".MD"]) = false ∧
  is_file_allowed (demo ∅) (PurePath.Path "/allowed/sub/b.md")
    (mkConfig [] 100 []) = true.
Proof.
  split_and!.
  - apply (proj1 (C3_is_file_allowed_extension (demo ∅)
                    (PurePath.Path "/allowed/sub/b.md") (mkConfig [] 100 [".txt"]))).
    + discriminate.
    + apply (bool_decide_eq_false_1 (_ ∈ _)). vm_compute. reflexivity.
  - apply (proj1 (C3_is_file_allowed_extension (demo ∅)
                    (PurePath.Path "/allowed/sub/b.md") (mkConfig [] 100 [".MD"]))).
    + discriminate.
    + apply (bool_decide_eq_false_1 (_ ∈ _)). vm_compute. reflexivity.
  - apply (proj2 (proj2 (C3_is_file_allowed_extension (demo ∅)
                    (PurePath.Path "/allowed/sub/b.md") (mkConfig [] 100 [])))
             eq_refl (mkStat S_IFREG 3 14)).
    + vm_compute. reflexivity.
    + vm_compute. discriminate.
Defined.

(** C4. A file whose size cannot be read is refused, and so is a file
    larger than [max_file_size], whatever its suffix and whatever the list
    of extensions. *)
Theorem C4_is_file_allowed_fails_closed w file_path c :
  (FS.stat w file_path = None → is_file_allowed w file_path c = false) ∧
  (∀ st, FS.stat w file_path = Some st → st_size st > max_file_size c →
         is_file_allowed w file_path c = false).
Proof.
  unfold is_file_allowed. split.
  - by intros ->.
  - intros st -> Hsize. destruct (st_size st >? max_file_size c) eqn:E; [done|lia].
Qed.

Lemma C4_is_file_allowed_fails_closed_witness :
  is_file_allowed (demo ∅) (PurePath.Path "/allowed/gone.txt") default_config = false ∧
  is_file_allowed (demo ∅) (PurePath.Path "/secret/key.txt") (mkConfig [] 5 []) = false.
Proof.
  split.
  - apply (proj1 (C4_is_file_allowed_fails_closed (demo ∅)
                    (PurePath.Path "/allowed/gone.txt") default_config)).
    vm_compute. reflexivity.
  - apply (proj2 (C4_is_file_allowed_fails_closed (demo ∅)
                    (PurePath.Path "/secret/key.txt") (mkConfig [] 5 []))
             (mkStat S_IFREG 10 16)).
    + vm_compute. reflexivity.
    + vm_compute. reflexivity.
Defined.

(** ** The guard on paths *)

Lemma starts_with_prefix pre l :
  PurePath.starts_with pre l = true ↔ pre `prefix_of` l.
Proof.
  revert l. induction pre as [|a pre IH]; intros [|b l]; simpl.
  - split; [intros; apply prefix_nil|done].
  - split; [intros; apply prefix_nil|done].
  - split; [done|]. by intros ?%prefix_nil_not.
  - rewrite andb_true_iff, bool_decide_eq_true, IH. split.
    + intros [-> ?]. by apply prefix_cons.
    + intros H. split; [by eapply prefix_cons_inv_1|by eapply prefix_cons_inv_2].
Qed.

Lemma starts_with_app pre rel : PurePath.starts_with pre (pre ++ rel) = true.
Proof. apply starts_with_prefix. by apply prefix_app_r. Qed.

Lemma relative_to_is_Some p other :
  is_Some (PurePath.relative_to p other) ↔
  absolute p = absolute other ∧ parts other `prefix_of` parts p.
Proof.
  unfold PurePath.relative_to. rewrite <-starts_with_prefix.
  destruct (bool_decide (absolute p = absolute other)) eqn:E1,
           (PurePath.starts_with (parts other) (parts p)) eqn:E2; simpl;
    rewrite ?bool_decide_eq_true, ?bool_decide_eq_false in E1;
    split; try (intros [? [=]]); try (intros [? [=]]); eauto; try done.
  all: intros [??]; done.
Qed.

(** [is_path_allowed] holds exactly when some allowed directory, resolved,
    is a prefix of the resolved candidate, component by component. *)
Lemma is_path_allowed_iff w file_path c :
  is_path_allowed w file_path c = true ↔
  ∃ d, d ∈ allowed_directories c ∧
       parts (FS.resolve w (PurePath.Path d))
         `prefix_of` parts (FS.resolve w (PurePath.Path file_path)).
Proof.
  unfold is_path_allowed. induction (allowed_directories c) as [|d ds IH].
  - split; [done|]. by intros (? & ?%elem_of_nil & _).
  - destruct (PurePath.relative_to _ (FS.resolve w (PurePath.Path d))) eqn:E.
    + split; [|done]. intros _. exists d. split; [left|].
      by apply (relative_to_is_Some _ (FS.resolve w (PurePath.Path d))).
    + rewrite IH. split.
      * intros (d' & ? & ?). exists d'. split; [by right|done].
      * intros (d' & [->|?]%elem_of_cons & Hpre); [|by eauto].
        assert (is_Some (PurePath.relative_to
                           (FS.resolve w (PurePath.Path file_path))
                           (FS.resolve w (PurePath.Path d)))) as [? H].
        { by apply relative_to_is_Some. }
        congruence.
Qed.



(** ** Loading the configuration *)

(** The settings file is read from the tree and the working directory
    alone. *)
Lemma load_env_file_environ root dir env env' c :
  load_env_file (mkOS root dir env) c = load_env_file (mkOS root dir env') c.
Proof. reflexivity. Qed.

Lemma getenv_set_Some w key v :
  getenv_set w key = Some v ↔ environ w !! key = Some v ∧ v ≠ "".
Proof.
  unfold getenv_set, getenv, nonempty.
  destruct (environ w !! key) as [u|]; [|by split; [|intros [??]]].
  case_bool_decide as Hu; simpl.
  - split; [done|]. by intros [[= <-] ?].
  - split; [by intros [= ->]|by intros [[= ->] _]].
Qed.

Lemma getenv_set_empty w key : environ w !! key = Some "" → getenv_set w key = None.
Proof. unfold getenv_set, getenv. by intros ->. Qed.

Lemma getenv_set_delete w key key' :
  environ w !! key = Some "" →
  getenv_set (mkOS (fs_root w) (cwd w) (delete key (environ w))) key'
  = getenv_set w key'.
Proof.
  intros Hkey. unfold getenv_set, getenv. simpl.
  destruct (decide (key = key')) as [<-|Hne].
  - by rewrite lookup_delete_eq, Hkey.
  - by rewrite lookup_delete_ne.
Qed.

(** The configuration in terms of the file layer and of the variables that
    are set. *)
Lemma load_config_layers w c0 :
  load_env_file w default_config = Ok c0 →
  load_config w =
    let! n :=
      match getenv_set w "MAX_FILE_SIZE" with
      | Some v => parse_int v
      | None => Ok (max_file_size c0)
      end in
    Ok (mkConfig
          (from_option parse_list (allowed_directories c0)
             (getenv_set w "ALLOWED_DIRECTORIES"))
          n
          (from_option parse_list (allowed_extensions c0)
             (getenv_set w "ALLOWED_EXTENSIONS"))).
Proof.
  intros H0. unfold load_config. rewrite H0. simpl.
  destruct (getenv_set w "ALLOWED_DIRECTORIES"), (getenv_set w "MAX_FILE_SIZE") as [v|],
    (getenv_set w "ALLOWED_EXTENSIONS"); simpl;
    try destruct (parse_int v); simpl; by destruct c0.
Qed.

Lemma load_config_file_layer w c :
  load_config w = Ok c → ∃ c0, load_env_file w default_config = Ok c0.
Proof.
  unfold load_config. destruct (load_env_file w default_config); [eauto|done].
Qed.

(** C10. A variable that is set to the empty string changes nothing: the
    configuration is the one loaded with the variable unset, so the value
    of the settings file (or the default) stays in force. *)
Theorem C10_empty_variable_does_not_override w key :
  environ w !! key = Some "" →
  load_config w
  = load_config (mkOS (fs_root w) (cwd w) (delete key (environ w))) ∧
  (∀ c c0,
     load_config w = Ok c → load_env_file w default_config = Ok c0 →
     (key = "ALLOWED_DIRECTORIES" → allowed_directories c = allowed_directories c0) ∧
     (key = "MAX_FILE_SIZE" → max_file_size c = max_file_size c0) ∧
     (key = "ALLOWED_EXTENSIONS" → allowed_extensions c = allowed_extensions c0)).
Proof.
  intros Hkey. split.
  - unfold load_config. rewrite !(getenv_set_delete w key) by done.
    destruct w; reflexivity.
  - intros c c0 Hc H0. rewrite (load_config_layers _ _ H0) in Hc.
    split_and!; intros ->; rewrite (getenv_set_empty _ _ Hkey) in Hc; simpl in Hc.
    + destruct (match getenv_set w "MAX_FILE_SIZE" with
                | Some v => parse_int v | None => Ok (max_file_size c0) end);
        simpl in Hc; by simplify_eq.
    + by simplify_eq.
    + destruct (match getenv_set w "MAX_FILE_SIZE" with
                | Some v => parse_int v | None => Ok (max_file_size c0) end);
        simpl in Hc; by simplify_eq.
Qed.

Lemma C10_empty_variable_does_not_override_witness :
  load_config (demo {["ALLOWED_DIRECTORIES" := ""]}) = load_config (demo ∅) ∧
  load_config (demo {["ALLOWED_DIRECTORIES" := ""]})
  = Ok (mkConfig ["/allowed"; "data"; "/nonexistent"] 1000 [".txt"; ".md"]).
Proof.
  split; [|vm_compute; reflexivity].
  refine (eq_trans
            (proj1 (C10_empty_variable_does_not_override
                      (demo {["ALLOWED_DIRECTORIES" := ""]}) "ALLOWED_DIRECTORIES" _)) _).
  - vm_compute. reflexivity.
  - vm_compute. reflexivity.
Defined.

(** ** Trees *)

(** Induction on trees, with the hypothesis for every entry of a
    directory. *)
Lemma node_nested_ind (P : node → Prop) :
  (∀ data mtime, P (File data mtime)) →
  (∀ size mtime es, Forall (λ e, P e.2) es → P (Dir size mtime es)) →
  (∀ target, P (Symlink target)) →
  ∀ n, P n.
Proof.
  intros HF HD HS. fix IH 1. intros [data mtime|size mtime es|target].
  - apply HF.
  - apply HD. induction es as [|[nm c] es IHes]; constructor; [apply IH|apply IHes].
  - apply HS.
Qed.

Lemma wf_node_entries size mtime es nm c :
  wf_node (Dir size mtime es) = true → (nm, c) ∈ es →
  valid_name nm = true ∧ wf_node c = true.
Proof.
  simpl. induction es as [|[nm' c'] es IH]; [by intros _ ?%elem_of_nil|].
  rewrite !andb_true_iff. intros [[??] ?] [[= -> ->]|?]%elem_of_cons; auto.
Qed.

Lemma entry_lookup_elem name es c :
  FS.entry_lookup name es = Some c → (name, c) ∈ es.
Proof.
  induction es as [|[nm' c'] es IH]; simpl; [done|].
  case_bool_decide as E; [intros [= ->]; subst; left|right; auto].
Qed.

Lemma wf_lookup_path n segs m :
  wf_node n = true → FS.lookup_path n segs = Some m → wf_node m = true.
Proof.
  revert n. induction segs as [|s segs IH]; intros n Hwf; simpl.
  - by intros [= <-].
  - destruct n as [|size mtime es|]; [done| |done].
    destruct (FS.entry_lookup s es) as [c|] eqn:E; [|done].
    apply entry_lookup_elem in E.
    apply IH. by eapply wf_node_entries.
Qed.

Lemma wf_follow w p n :
  wf_node (fs_root w) = true → FS.follow w p = Some n → wf_node n = true.
Proof.
  unfold FS.follow. intros Hwf.
  destruct (FS.namei _ _ _ _) as [c|]; simpl; [|done].
  by apply wf_lookup_path.
Qed.

(** Every directory visited lies under the one the walk starts from. *)
Lemma iterate_directories_prefix n :
  ∀ base d es, (d, es) ∈ FS.iterate_directories n base → base `prefix_of` d.
Proof.
  induction n as [| size mtime es IH |] using node_nested_ind;
    intros base d es'; simpl; [by intros ?%elem_of_nil| |by intros ?%elem_of_nil].
  intros [[= -> ->]|Hin]%elem_of_cons; [done|].
  induction IH as [|[nm c] es IHc _ IHes]; [by apply elem_of_nil in Hin|].
  apply elem_of_app in Hin as [Hin|Hin]; [|by apply IHes].
  apply IHc in Hin. by eapply prefix_app_l.
Qed.

(** What [rglob] yields under a well-formed directory begins with the name
    of one of its entries. *)
Lemma rglob_rel_head n rel :
  wf_node n = true → rel ∈ FS.rglob_rel n →
  ∃ nm rest, rel = nm :: rest ∧ valid_name nm = true.
Proof.
  intros Hwf. unfold FS.rglob_rel.
  intros ([d es'] & Hrel & Hin)%list_elem_of_bind.
  apply list_elem_of_fmap in Hrel as ([nm' c'] & -> & Hentry). simpl.
  destruct n as [|size mtime es|]; simpl in Hin;
    [by apply elem_of_nil in Hin| |by apply elem_of_nil in Hin].
  apply elem_of_cons in Hin as [[= -> ->]|Hin].
  - exists nm', []. split; [done|]. by eapply wf_node_entries.
  - assert (∃ nm c, (nm, c) ∈ es ∧ [nm] `prefix_of` d) as (nm & c & Hc & [k ->]).
    { clear Hwf. induction es as [|[nm c] es IH]; [by apply elem_of_nil in Hin|].
      apply elem_of_app in Hin as [Hin|Hin].
      - exists nm, c. split; [left|]. by eapply iterate_directories_prefix.
      - destruct (IH Hin) as (nm0 & c0 & ? & ?). exists nm0, c0. split; [by right|done]. }
    exists nm, (k ++ [nm']). split; [done|]. by eapply wf_node_entries.
Qed.

(** ** Listing *)

Lemma relative_to_child path rel :
  PurePath.relative_to (PurePath.joinparts path rel) path = Some (mkPath false rel).
Proof.
  unfold PurePath.relative_to, PurePath.joinparts. simpl.
  rewrite bool_decide_eq_true_2, starts_with_app, drop_app_length by done. done.
Qed.

Lemma file_info_child w path rel :
  file_info w path (PurePath.joinparts path rel)
  = Ok (entry_of (PurePath.joinparts path rel) (mkPath false rel)
          <$> FS.stat w (PurePath.joinparts path rel)).
Proof.
  unfold file_info. destruct (FS.stat _ _) as [st|]; [|done].
  by rewrite relative_to_child.
Qed.

(** The loop over what [rglob] found never raises, and every entry it
    emits is that of a regular file that passed [is_file_allowed]. *)
Lemma collect_files_children w c path rels :
  ∃ files,
    collect_files w c path (PurePath.joinparts path <$> rels) = Ok files ∧
    ∀ e, e ∈ files →
      ∃ rel st, rel ∈ rels ∧
        FS.is_file w (PurePath.joinparts path rel) = true ∧
        is_file_allowed w (PurePath.joinparts path rel) c = true ∧
        FS.stat w (PurePath.joinparts path rel) = Some st ∧
        e = entry_of (PurePath.joinparts path rel) (mkPath false rel) st.
Proof.
  induction rels as [|rel rels (files & IH & Hfiles)].
  - exists []. split; [done|]. by intros ? ?%elem_of_nil.
  - rewrite fmap_cons. cbn [collect_files].
    destruct (FS.is_file w _ && is_file_allowed w _ c) eqn:Hok.
    + apply andb_true_iff in Hok as [Hfile Hallowed].
      rewrite file_info_child, IH. simpl.
      eexists. split; [done|]. intros e [He|He]%elem_of_app.
      * destruct (FS.stat w (PurePath.joinparts path rel)) as [st|] eqn:Hst;
          simpl in He; [|by apply elem_of_nil in He].
        apply list_elem_of_singleton in He as ->.
        exists rel, st. split_and!; try done. left.
      * destruct (Hfiles e He) as (rel' & st & ? & ?).
        exists rel', st. split; [by right|done].
    + exists files. split; [done|]. intros e He.
      destruct (Hfiles e He) as (rel' & st & ? & ?).
      exists rel', st. split; [by right|done].
Qed.

(** What [rglob] yields lies strictly under the directory it starts from;
    in a well-formed tree it begins with the name of an entry. *)
Lemma rglob_children w path :
  ∃ rels, FS.rglob w path = PurePath.joinparts path <$> rels ∧
          ∀ rel, rel ∈ rels →
            rel ≠ [] ∧
            (wf_node (fs_root w) = true →
             ∃ nm rest, rel = nm :: rest ∧ valid_name nm = true).
Proof.
  unfold FS.rglob. destruct (FS.follow w path) as [n|] eqn:Hn.
  - exists (FS.rglob_rel n). split; [done|]. intros rel Hrel. split.
    + unfold FS.rglob_rel in Hrel.
      apply list_elem_of_bind in Hrel as ([d es] & Hrel & _).
      apply list_elem_of_fmap in Hrel as (x & -> & _). by destruct d.
    + intros Hwf. eapply rglob_rel_head; [|done]. by eapply wf_follow.
  - exists []. split; [done|]. by intros ? ?%elem_of_nil.
Qed.

Lemma is_dir_exists w p : FS.is_dir w p = true → FS.exists_ w p = true.
Proof.
  unfold FS.is_dir, FS.exists_. destruct (FS.stat w p); [|done].
  intros _. by apply bool_decide_eq_true_2.
Qed.

Lemma scan_directory_missing w c dir_path :
  FS.exists_ w (PurePath.Path dir_path) = false →
  scan_directory w c dir_path = DirError dir_path "Directory does not exist".
Proof. unfold scan_directory. by intros ->. Qed.

(** The report of a directory: its files, each strictly under it, a
    regular file that passed [is_file_allowed]. *)
Lemma scan_directory_is_dir w c dir_path :
  FS.is_dir w (PurePath.Path dir_path) = true →
  ∃ files,
    scan_directory w c dir_path = DirFiles dir_path files (length files) ∧
    ∀ e, e ∈ files →
      ∃ rel st,
        (rel ≠ [] ∧
         (wf_node (fs_root w) = true →
          ∃ nm rest, rel = nm :: rest ∧ valid_name nm = true)) ∧
        FS.is_file w (PurePath.joinparts (PurePath.Path dir_path) rel) = true ∧
        is_file_allowed w (PurePath.joinparts (PurePath.Path dir_path) rel) c = true ∧
        FS.stat w (PurePath.joinparts (PurePath.Path dir_path) rel) = Some st ∧
        e = entry_of (PurePath.joinparts (PurePath.Path dir_path) rel) (mkPath false rel) st.
Proof.
  intros Hdir. unfold scan_directory.
  rewrite (is_dir_exists _ _ Hdir), Hdir. simpl.
  destruct (rglob_children w (PurePath.Path dir_path)) as (rels & -> & Hrels).
  destruct (collect_files_children w c (PurePath.Path dir_path) rels)
    as (files & -> & Hfiles).
  exists files. split; [done|]. intros e He.
  destruct (Hfiles e He) as (rel & st & Hrel & ?).
  exists rel, st. split; [by apply Hrels|done].
Qed.

Lemma scan_directory_files w c dir_path d files n :
  scan_directory w c dir_path = DirFiles d files n →
  d = dir_path ∧ n = length files ∧ FS.is_dir w (PurePath.Path dir_path) = true.
Proof.
  intros H. destruct (FS.is_dir w (PurePath.Path dir_path)) eqn:Hdir.
  - destruct (scan_directory_is_dir w c dir_path Hdir) as (files' & H' & _).
    rewrite H' in H. by simplify_eq.
  - unfold scan_directory in H. rewrite Hdir in H.
    by destruct (FS.exists_ w (PurePath.Path dir_path)).
Qed.

(** The three outcomes of [lf_list_files] when the configuration loads. *)
Lemma lf_list_files_cases w directory_path c :
  load_config w = Ok c →
  lf_list_files w directory_path =
    Ok (if bool_decide (allowed_directories c = []) then ListError not_configured
        else if nonempty directory_path then
          if is_path_allowed w directory_path c
          then listing w c [directory_path]
          else ListError ("Directory '" +:+ directory_path
                            +:+ "' is not in allowed directories.")
        else listing w c (allowed_directories c)).
Proof.
  intros Hc. unfold lf_list_files. rewrite Hc. simpl.
  case_bool_decide; [done|]. destruct (nonempty directory_path); [|done].
  by destruct (is_path_allowed w directory_path c).
Qed.

(** C6. With two allowed directories, one a directory and one that does
    not exist, in either order, [lf_list_files] returns a listing: the
    configured list, a report with files and their count for the first, a
    report with the error for the second, and the count of two reports. *)
Theorem C6_missing_directory_does_not_abort w c good bad :
  load_config w = Ok c →
  FS.is_dir w (PurePath.Path good) = true →
  FS.exists_ w (PurePath.Path bad) = false →
  ∃ files,
    let ok := DirFiles good files (length files) in
    let failed := DirError bad "Directory does not exist" in
    scan_directory w c good = ok ∧
    (allowed_directories c = [good; bad] →
     lf_list_files w "" = Ok (Listing [good; bad] [ok; failed] 2)) ∧
    (allowed_directories c = [bad; good] →
     lf_list_files w "" = Ok (Listing [bad; good] [failed; ok] 2)).
Proof.
  intros Hc Hgood Hbad.
  destruct (scan_directory_is_dir w c good Hgood) as (files & Hscan & _).
  exists files. simpl. split; [done|].
  rewrite (lf_list_files_cases _ _ _ Hc). simpl.
  split; intros Hlist; rewrite Hlist; simpl; unfold listing; simpl;
    by rewrite Hlist, Hscan, (scan_directory_missing _ _ _ Hbad).
Qed.

Lemma C6_missing_directory_does_not_abort_witness :
  ∃ files,
    lf_list_files (bare {["ALLOWED_DIRECTORIES" := "/nonexistent,/allowed/sub"]}) ""
    = Ok (Listing ["/nonexistent"; "/allowed/sub"]
            [DirError "/nonexistent" "Directory does not exist";
             DirFiles "/allowed/sub" files (length files)] 2).
Proof.
  destruct (C6_missing_directory_does_not_abort
              (bare {["ALLOWED_DIRECTORIES" := "/nonexistent,/allowed/sub"]})
              (mkConfig ["/nonexistent"; "/allowed/sub"] 10485760
                 (allowed_extensions default_config))
              "/allowed/sub" "/nonexistent")
    as (files & _ & _ & H).
  - vm_compute. reflexivity.
  - vm_compute. reflexivity.
  - vm_compute. reflexivity.
  - exists files. apply H. reflexivity.
Defined.

(** C9. A call with the empty string is the call without the argument;
    when directories are configured it returns the listing of all of them,
    whatever [is_path_allowed] says of the empty string; and the only error
    it can return is that nothing is configured. *)
Theorem C9_empty_directory_path_lists_all w :
  lf_list_files_call w (Some "") = lf_list_files_call w None ∧
  (∀ c, load_config w = Ok c → allowed_directories c ≠ [] →
        lf_list_files w "" = Ok (listing w c (allowed_directories c))) ∧
  (∀ error, lf_list_files w "" = Ok (ListError error) → error = not_configured).
Proof.
  split_and!.
  - reflexivity.
  - intros c Hc Hne. rewrite (lf_list_files_cases _ _ _ Hc).
    by rewrite bool_decide_eq_false_2.
  - intros error. unfold lf_list_files.
    destruct (load_config w) as [c|]; simpl; [|done].
    case_bool_decide; simpl; [|done]. by intros [= <-].
Qed.

Lemma C9_empty_directory_path_lists_all_witness :
  is_path_allowed (demo ∅) ""
    (mkConfig ["/allowed"; "data"; "/nonexistent"] 1000 [".txt"; ".md"]) = false ∧
  lf_list_files (demo ∅) ""
  = Ok (listing (demo ∅)
          (mkConfig ["/allowed"; "data"; "/nonexistent"] 1000 [".txt"; ".md"])
          ["/allowed"; "data"; "/nonexistent"]).
Proof.
  split; [vm_compute; reflexivity|].
  apply (proj1 (proj2 (C9_empty_directory_path_lists_all (demo ∅)))
           (mkConfig ["/allowed"; "data"; "/nonexistent"] 1000 [".txt"; ".md"])).
  - vm_compute. reflexivity.
  - discriminate.
Defined.

(** ** Codecs *)

Local Ltac div_lia := zify; Z.to_euclidean_division_equations; lia.

Lemma b64char_spec n :
  (n < 64)%N → Codec.b64val (Codec.b64char n) = Some n ∧ Codec.b64char n ≠ Codec.pad.
Proof.
  intros Hn. rewrite <-(N2Nat.id n).
  assert (N.to_nat n < 64)%nat as Hk by lia.
  generalize dependent (N.to_nat n). clear n Hn. intros k Hk.
  do 64 (destruct k as [|k]; [by vm_compute|]). lia.
Qed.

Lemma b64val_b64char n : (n < 64)%N → Codec.b64val (Codec.b64char n) = Some n.
Proof. intros. by apply b64char_spec. Qed.

Lemma b64char_not_pad n : (n < 64)%N → bool_decide (Codec.b64char n = Codec.pad) = false.
Proof. intros. by apply bool_decide_eq_false_2, b64char_spec. Qed.

Lemma byte_of_N_eq b n : n = Byte.to_N b → Byte.of_N n = Some b.
Proof. intros ->. apply Byte.of_to_N. Qed.

(** Lists three elements at a time. *)
Lemma list_ind3 {A} (P : list A → Prop) :
  P [] → (∀ a, P [a]) → (∀ a b, P [a; b]) →
  (∀ a b c l, P l → P (a :: b :: c :: l)) →
  ∀ l, P l.
Proof.
  intros H0 H1 H2 H3 l.
  cut (P l ∧ (∀ a, P (a :: l)) ∧ (∀ a b, P (a :: b :: l))); [by intros [? _]|].
  induction l as [|x l (IH0 & IH1 & IH2)]; [done|].
  split_and!; [done|done|]. intros a b. by apply H3.
Qed.

(** The byte [a] is put back for the sum of sextets that equals it. *)
Local Ltac byte_back a :=
  match goal with
  | |- context [Byte.of_N ?n] =>
      replace n with (Byte.to_N a) by div_lia; rewrite (Byte.of_to_N a)
  end; cbn [mbind option_bind].

(** Decoding undoes encoding. *)
Lemma b64decode_b64encode bs : Codec.b64decode (Codec.b64encode bs) = Some bs.
Proof.
  induction bs as [|a|a b|a b c bs IH] using list_ind3; [done|..];
    pose proof (Byte.to_N_bounded a);
    try pose proof (Byte.to_N_bounded b); try pose proof (Byte.to_N_bounded c);
    cbn [Codec.b64encode Codec.b64decode];
    rewrite !b64val_b64char by div_lia; cbn [mbind option_bind];
    byte_back a.
  - by rewrite !bool_decide_eq_true_2.
  - rewrite !bool_decide_eq_true_2 by done.
    rewrite b64char_not_pad by div_lia. by byte_back b.
  - rewrite b64char_not_pad by div_lia.
    byte_back b. byte_back c. by rewrite IH.
Qed.

Lemma ascii_text_code_points s : Codec.ascii_text (Codec.code_points s) = s.
Proof.
  unfold Codec.ascii_text, Codec.code_points.
  induction s as [|c s IH]; [done|].
  cbn. by rewrite ascii_N_embedding, IH.
Qed.

Section newlines.
Context {A : Type} (is_cr is_lf : A → bool) (lf : A).
Hypothesis lf_not_cr : is_cr lf = false.

(** A text without CR is read as it is ... *)
Lemma translate_newlines_id l :
  Forall (λ c, is_cr c = false) l → PyStr.translate_newlines is_cr is_lf lf l = l.
Proof.
  induction 1 as [|c l Hc _ IH]; simpl; [done|]. by rewrite Hc, IH.
Qed.

Lemma translate_newlines_cons2 a b l :
  PyStr.translate_newlines is_cr is_lf lf (a :: b :: l)
  = if is_cr a then
      if is_lf b then lf :: PyStr.translate_newlines is_cr is_lf lf l
      else lf :: PyStr.translate_newlines is_cr is_lf lf (b :: l)
    else a :: PyStr.translate_newlines is_cr is_lf lf (b :: l).
Proof. reflexivity. Qed.

(** ... and no CR is left in what is read. *)
Lemma translate_newlines_no_cr l :
  Forall (λ c, is_cr c = false) (PyStr.translate_newlines is_cr is_lf lf l).
Proof.
  cut (Forall (λ c, is_cr c = false) (PyStr.translate_newlines is_cr is_lf lf l)
       ∧ ∀ a, Forall (λ c, is_cr c = false)
                (PyStr.translate_newlines is_cr is_lf lf (a :: l)));
    [by intros [? _]|].
  induction l as [|b l [IH0 IH1]].
  - split; [constructor|]. intros a. simpl.
    destruct (is_cr a) eqn:Ha; by repeat constructor.
  - split; [done|]. intros a. rewrite translate_newlines_cons2.
    destruct (is_cr a) eqn:Ha; [destruct (is_lf b)|]; by constructor.
Qed.

Lemma translate_newlines_fixed l :
  PyStr.translate_newlines is_cr is_lf lf l = l ↔ Forall (λ c, is_cr c = false) l.
Proof.
  split; [|apply translate_newlines_id].
  intros <-. apply translate_newlines_no_cr.
Qed.
End newlines.

(** ** Reading *)

Lemma follow_file w p data mtime :
  FS.follow w p = Some (File data mtime) →
  FS.stat w p = Some (mkStat S_IFREG (Z.of_nat (length data)) mtime) ∧
  FS.exists_ w p = true ∧ FS.is_file w p = true.
Proof.
  intros H. unfold FS.exists_, FS.is_file, FS.stat. rewrite H. simpl.
  by split_and!.
Qed.

Lemma not_elem_of_cr (text : list N) :
  Forall (λ c, (13 =? c)%N = false) text ↔ 13%N ∉ text.
Proof.
  rewrite Forall_forall. split.
  - intros H Hin. specialize (H _ Hin). by rewrite N.eqb_refl in H.
  - intros H x Hx. apply N.eqb_neq. by intros <-.
Qed.

(** The successful reads: the four checks pass and the content is read. *)
Lemma lf_read_file_regular w file_path c data mtime :
  load_config w = Ok c →
  allowed_directories c ≠ [] →
  is_path_allowed w file_path c = true →
  FS.follow w (PurePath.Path file_path) = Some (File data mtime) →
  is_file_allowed w (PurePath.Path file_path) c = true →
  lf_read_file w file_path =
    let path := PurePath.Path file_path in
    let read :=
      match Codec.read_text data with
      | Some content => ("text", content)
      | None => ("binary_base64", Codec.code_points (Codec.b64encode data))
      end in
    Ok (ReadOk (FileContent.mk (PurePath.str path) (PurePath.name path)
                  (Z.of_nat (length data)) mtime (PurePath.suffix path)
                  read.1 read.2)).
Proof.
  intros Hc Hne Hpath Hfollow Hfile.
  destruct (follow_file _ _ _ _ Hfollow) as (Hstat & Hexists & Hisfile).
  unfold lf_read_file. rewrite Hc. simpl.
  rewrite bool_decide_eq_false_2, Hpath, Hexists, Hisfile, Hfile by done. simpl.
  unfold read_content, read_bytes. rewrite Hfollow. simpl.
  destruct (Codec.read_text data); simpl; by rewrite Hstat.
Qed.

(** C5, as the code has it.  An allowed, existing, regular file that
    passes the policy is read.  When its bytes are UTF-8 the result is of
    type [text] and its content is the decoded text with universal
    newlines (CR LF and a lone CR read as LF): it is the decoded text
    itself exactly when that text has no CR.  When its bytes are not UTF-8
    the result is of type [binary_base64] and its content decodes, as
    base64, to the bytes of the file. *)
Theorem C5_read_file_content w file_path c data mtime :
  load_config w = Ok c →
  allowed_directories c ≠ [] →
  is_path_allowed w file_path c = true →
  FS.follow w (PurePath.Path file_path) = Some (File data mtime) →
  is_file_allowed w (PurePath.Path file_path) c = true →
  ∃ file,
    lf_read_file w file_path = Ok (ReadOk file) ∧
    match Codec.utf8_decode data with
    | Some text =>
        FileContent.content_type file = "text" ∧
        FileContent.content file
        = PyStr.translate_newlines (N.eqb 13) (N.eqb 10) 10%N text ∧
        (FileContent.content file = text ↔ 13%N ∉ text)
    | None =>
        FileContent.content_type file = "binary_base64" ∧
        Codec.b64decode (Codec.ascii_text (FileContent.content file)) = Some data
    end.
Proof.
  intros Hc Hne Hpath Hfollow Hfile.
  eexists. split; [by apply (lf_read_file_regular w file_path c data mtime)|].
  unfold Codec.read_text. destruct (Codec.utf8_decode data) as [text|]; simpl.
  - split_and!; [done..|]. rewrite <-not_elem_of_cr. by apply translate_newlines_fixed.
  - split; [done|]. by rewrite ascii_text_code_points, b64decode_b64encode.
Qed.

Lemma C5_read_file_content_witness :
  (∃ file,
     lf_read_file (demo ∅) "/allowed/crlf.txt" = Ok (ReadOk file) ∧
     FileContent.content_type file = "text" ∧
     FileContent.content file = [97; 10; 98]%N) ∧
  (∃ file,
     lf_read_file (demo ∅) "/allowed/blob.txt" = Ok (ReadOk file) ∧
     FileContent.content_type file = "binary_base64" ∧
     Codec.b64decode (Codec.ascii_text (FileContent.content file))
     = Some [xff; xfe; x00]).
Proof.
  split.
  - destruct (C5_read_file_content (demo ∅) "/allowed/crlf.txt"
                (mkConfig ["/allowed"; "data"; "/nonexistent"] 1000 [".txt"; ".md"])
                [x61; x0d; x0a; x62] 12) as (file & Hread & Htype & Hcontent & _).
    + vm_compute. reflexivity.
    + discriminate.
    + vm_compute. reflexivity.
    + vm_compute. reflexivity.
    + vm_compute. reflexivity.
    + exists file. split_and!; [exact Hread|exact Htype|exact Hcontent].
  - destruct (C5_read_file_content (demo ∅) "/allowed/blob.txt"
                (mkConfig ["/allowed"; "data"; "/nonexistent"] 1000 [".txt"; ".md"])
                [xff; xfe; x00] 13) as (file & Hread & Htype & Hcontent).
    + vm_compute. reflexivity.
    + discriminate.
    + vm_compute. reflexivity.
    + vm_compute. reflexivity.
    + vm_compute. reflexivity.
    + exists file. split_and!; [exact Hread|exact Htype|exact Hcontent].
Defined.

(** C5, as the specification has it, fails on a file with a CR LF line
    end: the text returned has LF in its place. *)
Lemma C5_exact_text_counterexample :
  ¬ (∀ w file_path c data mtime,
       load_config w = Ok c →
       allowed_directories c ≠ [] →
       is_path_allowed w file_path c = true →
       FS.follow w (PurePath.Path file_path) = Some (File data mtime) →
       is_file_allowed w (PurePath.Path file_path) c = true →
       ∃ file,
         lf_read_file w file_path = Ok (ReadOk file) ∧
         match Codec.utf8_decode data with
         | Some text =>
             FileContent.content_type file = "text" ∧
             FileContent.content file = text
         | None =>
             FileContent.content_type file = "binary_base64" ∧
             Codec.b64decode (Codec.ascii_text (FileContent.content file)) = Some data
         end).
Proof.
  intros H.
  destruct (H (demo ∅) "/allowed/crlf.txt"
              (mkConfig ["/allowed"; "data"; "/nonexistent"] 1000 [".txt"; ".md"])
              [x61; x0d; x0a; x62] 12) as (file & Hread & Hcontent);
    try (vm_compute; reflexivity); [discriminate|].
  vm_compute in Hread. injection Hread as <-.
  vm_compute in Hcontent. by destruct Hcontent as [_ [=]].
Qed.

(** ** The paths of the entries *)

Lemma split_no_sep sep s x :
  x ∈ PyStr.split sep s → PyStr.contains sep x = false.
Proof.
  revert x. induction s as [|c s IH]; intros x; simpl.
  - by intros ->%list_elem_of_singleton.
  - case_bool_decide as Hc.
    + intros [->|?]%elem_of_cons; [done|by apply IH].
    + destruct (PyStr.split sep s) as [|h t].
      * intros ->%list_elem_of_singleton. simpl. by rewrite bool_decide_eq_false_2.
      * intros [->|?]%elem_of_cons.
        -- simpl. rewrite bool_decide_eq_false_2 by done. apply IH. left.
        -- apply IH. by right.
Qed.

Lemma components_valid s x : x ∈ PurePath.components s → valid_name x = true.
Proof.
  unfold PurePath.components, PurePath.is_component, valid_name, nonempty.
  intros [Hx Hin]%list_elem_of_In%filter_In.
  apply list_elem_of_In, split_no_sep in Hx. rewrite Hx.
  apply andb_true_iff in Hin as [-> _]. done.
Qed.

Lemma startswith_valid_name x y :
  valid_name x = true → PyStr.startswith "/"%char (x +:+ y) = false.
Proof.
  unfold valid_name, nonempty. destruct x as [|c x]; [done|]. simpl.
  intros H. apply negb_true_iff, orb_false_iff in H as [H _]. done.
Qed.

Lemma string_app_empty_r x : x +:+ "" = x.
Proof.
  induction x as [|c x IH]; [done|].
  change (String c x +:+ "") with (String c (x +:+ "")). by rewrite IH.
Qed.

Lemma join_head sep x l : ∃ y, PyStr.join sep (x :: l) = x +:+ y.
Proof.
  destruct l as [|x' l]; simpl; [|by eauto].
  exists "". by rewrite string_app_empty_r.
Qed.

(** The text of a path begins with a slash exactly when the path is
    absolute, provided its first component is a file name. *)
Lemma str_startswith p x l :
  parts p = x :: l → valid_name x = true →
  PyStr.startswith "/"%char (PurePath.str p) = absolute p.
Proof.
  intros Hp Hx. unfold PurePath.str. rewrite Hp. destruct (absolute p); [done|].
  destruct (join_head "/" x l) as [y ->]. by apply startswith_valid_name.
Qed.

Lemma str_absolute p :
  absolute p = true → PyStr.startswith "/"%char (PurePath.str p) = true.
Proof. unfold PurePath.str. by intros ->. Qed.

Lemma last_app_nonempty {A} (l rel : list A) d :
  rel ≠ [] → List.last (l ++ rel) d = List.last rel d.
Proof.
  intros Hrel. induction l as [|x l IH]; [done|]. simpl.
  destruct (l ++ rel) eqn:E; [|done]. by apply app_eq_nil in E as [_ ?].
Qed.

(** A listing is the reports of the directories scanned. *)
Lemma lf_list_files_listing w directory_path allowed reports total :
  lf_list_files w directory_path = Ok (Listing allowed reports total) →
  ∃ c scanned,
    load_config w = Ok c ∧ allowed = allowed_directories c ∧
    reports = scan_directory w c <$> scanned ∧ total = length scanned ∧
    (directory_path ≠ "" ∧ is_path_allowed w directory_path c = true
       ∧ scanned = [directory_path]
     ∨ directory_path = "" ∧ scanned = allowed_directories c).
Proof.
  unfold lf_list_files. destruct (load_config w) as [c|]; simpl; [|done].
  case_bool_decide; [done|]. unfold nonempty. case_bool_decide as Hd; simpl.
  - intros [= <- <- <-]. exists c, (allowed_directories c).
    rewrite length_fmap. split_and!; auto.
  - destruct (is_path_allowed w directory_path c) eqn:Hp; simpl; [|done].
    intros [= <- <- <-]. exists c, [directory_path]. split_and!; auto.
Qed.

(** C8, as the code has it.  Every entry of a listing is that of a file
    strictly under the scanned directory [d]: its name, its size, its
    modification time and its suffix, its path relative to [d], and as
    its path the path of [d] as it is configured joined with the relative
    path.  That path is absolute when [d] is written as an absolute path;
    in a well-formed tree it is absolute only then, so under a relative
    directory string the entry holds a path relative to the working
    directory. *)
Theorem C8_entry_paths w directory_path allowed reports total d files count e :
  lf_list_files w directory_path = Ok (Listing allowed reports total) →
  DirFiles d files count ∈ reports →
  e ∈ files →
  ∃ rel st,
    let root := PurePath.Path d in
    let file_path := PurePath.joinparts root rel in
    rel ≠ [] ∧
    FS.stat w file_path = Some st ∧
    FileEntry.name e = List.last rel "" ∧
    FileEntry.path e = PurePath.str file_path ∧
    FileEntry.relative_path e = PurePath.str (mkPath false rel) ∧
    PurePath.relative_to file_path root = Some (mkPath false rel) ∧
    FileEntry.size e = st_size st ∧
    FileEntry.modified e = st_mtime st ∧
    FileEntry.extension e = PurePath.suffix file_path ∧
    (PyStr.startswith "/"%char d = true →
     PyStr.startswith "/"%char (FileEntry.path e) = true) ∧
    (wf_node (fs_root w) = true →
     PyStr.startswith "/"%char (FileEntry.path e) = PyStr.startswith "/"%char d).
Proof.
  intros Hlist Hreport He.
  apply lf_list_files_listing in Hlist as (c & scanned & _ & _ & -> & _ & _).
  apply list_elem_of_fmap in Hreport as (dir_path & Hscan & _). symmetry in Hscan.
  destruct (scan_directory_files _ _ _ _ _ _ Hscan) as (-> & _ & Hdir).
  destruct (scan_directory_is_dir w c dir_path Hdir) as (files' & Hscan' & Hfiles).
  rewrite Hscan' in Hscan. injection Hscan as -> _.
  destruct (Hfiles e He) as (rel & st & [Hrel Hhead] & _ & _ & Hst & ->).
  exists rel, st. simpl. split_and!; try done.
  - by apply last_app_nonempty.
  - apply relative_to_child.
  - intros Habs. by apply str_absolute.
  - intros Hwf. destruct (Hhead Hwf) as (nm & rest & -> & Hnm).
    change (PyStr.startswith "/"%char dir_path)
      with (absolute (PurePath.joinparts (PurePath.Path dir_path) (nm :: rest))).
    destruct (PurePath.components dir_path) as [|x l] eqn:Hparts.
    + by apply (str_startswith _ nm rest); [simpl; rewrite Hparts|].
    + apply (str_startswith _ x (l ++ nm :: rest)); [by simpl; rewrite Hparts|].
      apply (components_valid dir_path). rewrite Hparts. left.
Qed.

Lemma C8_entry_paths_witness :
  ∃ rel st,
    rel ≠ [] ∧
    FS.stat (demo ∅) (PurePath.joinparts (PurePath.Path "data") rel) = Some st ∧
    PurePath.str (PurePath.joinparts (PurePath.Path "data") rel) = "data/a.txt" ∧
    PurePath.str (mkPath false rel) = "a.txt" ∧
    PyStr.startswith "/"%char "data/a.txt" = PyStr.startswith "/"%char "data".
Proof.
  destruct (C8_entry_paths (demo ∅) "data"
              ["/allowed"; "data"; "/nonexistent"]
              [DirFiles "data" [FileEntry.mk "a.txt" "data/a.txt" "a.txt" 1 18 ".txt"] 1]
              1%nat "data" [FileEntry.mk "a.txt" "data/a.txt" "a.txt" 1 18 ".txt"] 1%nat
              (FileEntry.mk "a.txt" "data/a.txt" "a.txt" 1 18 ".txt"))
    as (rel & st & Hrel & Hst & _ & Hpath & Hrelative & _ & _ & _ & _ & _ & Hwf).
  - vm_compute. reflexivity.
  - left.
  - left.
  - exists rel, st. split_and!; [exact Hrel|exact Hst|symmetry; exact Hpath
                                |symmetry; exact Hrelative|apply Hwf].
    vm_compute. reflexivity.
Defined.

(** C8, as the specification has it, fails under a directory configured
    by a relative path: the entry then holds a relative path. *)
Lemma C8_absolute_path_counterexample :
  ¬ (∀ w directory_path allowed reports total d files count e,
       lf_list_files w directory_path = Ok (Listing allowed reports total) →
       DirFiles d files count ∈ reports →
       e ∈ files →
       PyStr.startswith "/"%char (FileEntry.path e) = true).
Proof.
  intros H.
  specialize (H (demo ∅) "" ["/allowed"; "data"; "/nonexistent"]
                (scan_directory (demo ∅)
                   (mkConfig ["/allowed"; "data"; "/nonexistent"] 1000 [".txt"; ".md"])
                 <$> ["/allowed"; "data"; "/nonexistent"])
                3%nat "data" [FileEntry.mk "a.txt" "data/a.txt" "a.txt" 1 18 ".txt"] 1%nat
                (FileEntry.mk "a.txt" "data/a.txt" "a.txt" 1 18 ".txt")).
  discriminate H.
  - vm_compute. reflexivity.
  - right. left.
  - left.
Qed.

(** ** The layers of the configuration *)

Lemma apply_line_ignored c line :
  PyStr.strip line = "" ∨ PyStr.startswith "#"%char (PyStr.strip line) = true →
  apply_line c line = Ok c.
Proof.
  unfold apply_line. intros [->| ->]; [done|].
  by rewrite andb_false_r.
Qed.

Lemma apply_line_setting c line key value :
  PyStr.strip line = key +:+ String "="%char value →
  PyStr.contains "="%char key = false →
  PyStr.startswith "#"%char key = false →
  apply_line c line
  = set_key c (PyStr.strip key) (PyStr.strip_quotes (PyStr.strip value)).
Proof.
  intros Hline Hkey Hhash. unfold apply_line. rewrite Hline.
  rewrite contains_app_sep, split_once_app_sep by done.
  destruct key as [|ch key]; [done|].
  change (String ch key +:+ String "="%char value)
    with (String ch (key +:+ String "="%char value)).
  simpl in Hhash |- *. by rewrite Hhash.
Qed.

Lemma parse_list_elem value e :
  e ∈ parse_list value ↔
  ∃ d, d ∈ PyStr.split ","%char value ∧ e = PyStr.strip d ∧ e ≠ "".
Proof.
  unfold parse_list. rewrite list_elem_of_fmap. split.
  - intros (d & -> & [Hd Hne]%list_elem_of_In%filter_In).
    exists d. split_and!; [by apply list_elem_of_In|done|].
    unfold nonempty in Hne. by apply negb_true_iff, bool_decide_eq_false in Hne.
  - intros (d & Hd & -> & Hne). exists d. split; [done|].
    apply list_elem_of_In, filter_In. split; [by apply list_elem_of_In|].
    unfold nonempty. by apply negb_true_iff, bool_decide_eq_false.
Qed.

Lemma apply_lines_snoc c lines line :
  apply_lines c (lines ++ [line])
  = let! c' := apply_lines c lines in apply_line c' line.
Proof. unfold apply_lines. by rewrite foldl_app. Qed.

Lemma load_env_file_missing w c :
  FS.exists_ w env_file = false → load_env_file w c = Ok c.
Proof. unfold load_env_file. by intros ->. Qed.

Lemma load_env_file_lines w c data mtime :
  FS.follow w env_file = Some (File data mtime) →
  load_env_file w c
  = apply_lines c (PyStr.readlines (String.string_of_list_byte data)).
Proof.
  intros H. unfold load_env_file.
  destruct (follow_file _ _ _ _ H) as (_ & -> & _). by rewrite H.
Qed.



(** ** What the results have passed *)

(** A successful read has passed both checks, on the path as it was
    given. *)
Lemma lf_read_file_guarded w file_path file :
  lf_read_file w file_path = Ok (ReadOk file) →
  ∃ c, load_config w = Ok c ∧
       is_path_allowed w file_path c = true ∧
       is_file_allowed w (PurePath.Path file_path) c = true ∧
       FileContent.file_path file = PurePath.str (PurePath.Path file_path).
Proof.
  unfold lf_read_file. destruct (load_config w) as [c|] eqn:Hc; simpl; [|done].
  case_bool_decide; [done|].
  destruct (is_path_allowed w file_path c) eqn:Hpath; simpl; [|done].
  destruct (FS.exists_ w _); simpl; [|done].
  destruct (FS.is_file w _); simpl; [|done].
  destruct (is_file_allowed w _ c) eqn:Hfile; simpl; [|done].
  destruct (read_content w _) as [read|]; simpl; [|done].
  destruct (FS.stat w _); simpl; [|done].
  intros [= <-]. by exists c.
Qed.

(** An entry of a listing is that of a file that passed [is_file_allowed],
    found under a directory that is an allowed directory as configured or
    has passed [is_path_allowed].  The file itself is not submitted to
    [is_path_allowed]. *)
Lemma lf_list_files_guarded w directory_path allowed reports total d files count e :
  lf_list_files w directory_path = Ok (Listing allowed reports total) →
  DirFiles d files count ∈ reports →
  e ∈ files →
  ∃ c rel,
    load_config w = Ok c ∧
    (d ∈ allowed_directories c ∨ is_path_allowed w d c = true) ∧
    rel ≠ [] ∧
    FileEntry.path e = PurePath.str (PurePath.joinparts (PurePath.Path d) rel) ∧
    FS.is_file w (PurePath.joinparts (PurePath.Path d) rel) = true ∧
    is_file_allowed w (PurePath.joinparts (PurePath.Path d) rel) c = true.
Proof.
  intros Hlist Hreport He.
  apply lf_list_files_listing in Hlist as (c & scanned & Hc & _ & -> & _ & Hscanned).
  apply list_elem_of_fmap in Hreport as (dir_path & Hscan & Hin). symmetry in Hscan.
  destruct (scan_directory_files _ _ _ _ _ _ Hscan) as (-> & _ & Hdir).
  destruct (scan_directory_is_dir w c dir_path Hdir) as (files' & Hscan' & Hfiles).
  rewrite Hscan' in Hscan. injection Hscan as -> _.
  destruct (Hfiles e He) as (rel & st & [Hrel _] & Hfile & Hallowed & _ & ->).
  exists c, rel. split_and!; try done.
  destruct Hscanned as [(_ & Hp & ->)|(_ & ->)]; [right|by left].
  by apply list_elem_of_singleton in Hin as ->.
Qed.

(** C1, on the sample tree with [/allowed] as the only allowed directory:
    the listing holds the entry of [/allowed/link.txt], a link to
    [/secret/key.txt], with the size and the time of that file;
    [is_path_allowed] refuses the path of this entry, and [lf_read_file]
    refuses to read it. *)
Theorem C1_listing_follows_link_out_of_root :
  let w := bare {["ALLOWED_DIRECTORIES" := "/allowed"]} in
  let c := mkConfig ["/allowed"] 10485760 (allowed_extensions default_config) in
  let leaked := FileEntry.mk "link.txt" "/allowed/link.txt" "link.txt" 10 16 ".txt" in
  load_config w = Ok c ∧
  lf_list_files w ""
  = Ok (Listing ["/allowed"]
          [DirFiles "/allowed"
             [FileEntry.mk "notes.txt" "/allowed/notes.txt" "notes.txt" 3 11 ".txt";
              FileEntry.mk "crlf.txt" "/allowed/crlf.txt" "crlf.txt" 4 12 ".txt";
              FileEntry.mk "blob.txt" "/allowed/blob.txt" "blob.txt" 3 13 ".txt";
              leaked;
              FileEntry.mk "b.md" "/allowed/sub/b.md" "sub/b.md" 3 14 ".md"]
             5]
          1) ∧
  FS.stat w (PurePath.Path "/secret/key.txt") = Some (mkStat S_IFREG 10 16) ∧
  FS.resolve w (PurePath.Path (FileEntry.path leaked))
  = mkPath true ["secret"; "key.txt"] ∧
  is_file_allowed w (PurePath.Path (FileEntry.path leaked)) c = true ∧
  is_path_allowed w (FileEntry.path leaked) c = false ∧
  lf_read_file w (FileEntry.path leaked)
  = Ok (ReadError "File '/allowed/link.txt' is not in allowed directories.").
Proof. vm_compute. by split_and!. Qed.

(** ** The bound on the expansion of links *)

Lemma lookup_link_paths n :
  ∀ p target, FS.lookup_path n p = Some (Symlink target) → p ∈ FS.link_paths n.
Proof.
  induction n as [| size mtime es IH |] using node_nested_ind; intros p t.
  - by destruct p.
  - destruct p as [|s p]; simpl; [done|].
    destruct (FS.entry_lookup s es) as [c|] eqn:E; [|done]. intros Hp.
    induction IH as [|[nm c'] es IHc _ IHes]; simpl in E; [done|].
    apply elem_of_app. case_bool_decide as Hnm.
    + injection E as ->. subst nm. left. apply list_elem_of_fmap_2. by eapply IHc.
    + right. by apply IHes.
  - destruct p; simpl; [intros _; left|done].
Qed.

Lemma joinrealpath_nil fuel root seen path :
  FS.joinrealpath (S fuel) root seen path [] = (path, true).
Proof. reflexivity. Qed.

Lemma joinrealpath_cons fuel root seen path name rest :
  FS.joinrealpath (S fuel) root seen path (name :: rest) =
    if bool_decide (name = "..")
    then FS.joinrealpath (S fuel) root seen (removelast path) rest
    else
      match FS.lookup_path root (path ++ [name]) with
      | Some (Symlink target) =>
          if bool_decide (path ++ [name] ∈ seen)
          then ((path ++ [name]) ++ rest, false)
          else
            match FS.joinrealpath fuel root ((path ++ [name]) :: seen)
                    (FS.link_start path target) (PurePath.components target) with
            | (p, true) => FS.joinrealpath (S fuel) root seen p rest
            | (p, false) => (p ++ rest, false)
            end
      | _ => FS.joinrealpath (S fuel) root seen (path ++ [name]) rest
      end.
Proof. reflexivity. Qed.

(** Once the fuel and the links under expansion together exceed the links
    of the tree, more fuel changes nothing. *)
Lemma joinrealpath_fuel_step root fuel :
  ∀ seen path rest,
    NoDup seen → (∀ p, p ∈ seen → p ∈ FS.link_paths root) →
    (length (FS.link_paths root) < fuel + length seen)%nat →
    FS.joinrealpath fuel root seen path rest
    = FS.joinrealpath (S fuel) root seen path rest.
Proof.
  induction fuel as [|fuel IH]; intros seen path rest Hnodup Hseen Hlen.
  - apply NoDup_submseteq, submseteq_length in Hseen; [lia|done].
  - revert path. induction rest as [|name rest IHrest]; intros path; [done|].
    rewrite !joinrealpath_cons. case_bool_decide; [apply IHrest|].
    destruct (FS.lookup_path root (path ++ [name])) as [[| |target]|] eqn:E;
      [apply IHrest..| |apply IHrest].
    case_bool_decide as Hin; [done|].
    rewrite <-(IH ((path ++ [name]) :: seen)).
    + destruct (FS.joinrealpath fuel root _ _ _) as [q []]; [apply IHrest|done].
    + by constructor.
    + intros q [->|?]%elem_of_cons; [by eapply lookup_link_paths|by apply Hseen].
    + simpl. lia.
Qed.

(** The fuel that [resolve] gives is as good as any larger one. *)
Lemma joinrealpath_fuel root fuel path rest :
  (length (FS.link_paths root) < fuel)%nat →
  FS.joinrealpath fuel root [] path rest
  = FS.joinrealpath (S (length (FS.link_paths root))) root [] path rest.
Proof.
  intros Hlen. replace fuel with (fuel - S (length (FS.link_paths root))
                                  + S (length (FS.link_paths root)))%nat by lia.
  induction (fuel - S (length (FS.link_paths root)))%nat as [|k IH]; [done|].
  rewrite <-IH. symmetry. apply joinrealpath_fuel_step.
  - constructor.
  - by intros ? ?%elem_of_nil.
  - simpl. lia.
Qed.

(** * Further properties of [app.py] *)

(** ** Errors of the configuration *)

Lemma apply_lines_cons c line lines :
  apply_lines c (line :: lines)
  = let! c' := apply_line c line in apply_lines c' lines.
Proof.
  unfold apply_lines. simpl. destruct (apply_line c line) as [c'|e]; simpl; [done|].
  induction lines as [|l lines IH]; [done|]. simpl. exact IH.
Qed.

Lemma apply_lines_app c pre post :
  apply_lines c (pre ++ post)
  = let! c' := apply_lines c pre in apply_lines c' post.
Proof.
  revert c. induction pre as [|line pre IH]; intros c; [done|].
  rewrite <-app_comm_cons, !apply_lines_cons.
  destruct (apply_line c line) as [c'|e]; simpl; [apply IH|done].
Qed.









(** ** The settings file *)

(** X5. In the settings file the last line that sets a key wins: after
    any lines that load, a final line [KEY=value] gives the field of [KEY]
    the value of that line alone and leaves the other two fields as the
    earlier lines made them. *)
Theorem last_setting_wins c lines line value c' :
  apply_lines c lines = Ok c' →
  (PyStr.strip line = "ALLOWED_DIRECTORIES=" +:+ value →
   apply_lines c (lines ++ [line])
   = Ok (mkConfig (parse_list (PyStr.strip_quotes (PyStr.strip value)))
           (max_file_size c') (allowed_extensions c'))) ∧
  (PyStr.strip line = "ALLOWED_EXTENSIONS=" +:+ value →
   apply_lines c (lines ++ [line])
   = Ok (mkConfig (allowed_directories c') (max_file_size c')
           (parse_list (PyStr.strip_quotes (PyStr.strip value))))) ∧
  (∀ n, PyStr.strip line = "MAX_FILE_SIZE=" +:+ value →
        PyStr.int (PyStr.strip_quotes (PyStr.strip value)) = Some n →
        apply_lines c (lines ++ [line])
        = Ok (mkConfig (allowed_directories c') n (allowed_extensions c'))).
Proof.
  intros Hlines. rewrite apply_lines_snoc, Hlines. simpl. split_and!.
  - intros Hline.
    by rewrite (apply_line_setting c' line "ALLOWED_DIRECTORIES" value).
  - intros Hline.
    by rewrite (apply_line_setting c' line "ALLOWED_EXTENSIONS" value).
  - intros n Hline Hn.
    rewrite (apply_line_setting c' line "MAX_FILE_SIZE" value) by done.
    unfold set_key, parse_int. simpl. by rewrite Hn.
Qed.

Lemma last_setting_wins_witness :
  apply_lines default_config
    (["ALLOWED_DIRECTORIES=/srv/a"; "MAX_FILE_SIZE=5"]
     ++ ["  ALLOWED_DIRECTORIES='/srv/b, /srv/c'  "])
  = Ok (mkConfig ["/srv/b"; "/srv/c"] 5 (allowed_extensions default_config)).
Proof.
  apply (proj1 (last_setting_wins default_config
                  ["ALLOWED_DIRECTORIES=/srv/a"; "MAX_FILE_SIZE=5"]
                  "  ALLOWED_DIRECTORIES='/srv/b, /srv/c'  " "'/srv/b, /srv/c'"
                  (mkConfig ["/srv/a"] 5 (allowed_extensions default_config))
                  ltac:(vm_compute; reflexivity))).
  vm_compute. reflexivity.
Defined.

Lemma split_single sep x : PyStr.contains sep x = false → PyStr.split sep x = [x].
Proof.
  induction x as [|c x IH]; simpl; [done|].
  intros [Hc Hx]%orb_false_iff. by rewrite Hc, (IH Hx).
Qed.

Lemma split_app_sep sep x y :
  PyStr.contains sep x = false →
  PyStr.split sep (x +:+ String sep y) = x :: PyStr.split sep y.
Proof.
  induction x as [|c x IH]; simpl.
  - intros _. by rewrite bool_decide_eq_true_2.
  - intros [Hc Hx]%orb_false_iff.
    change (String c x +:+ String sep y) with (String c (x +:+ String sep y)).
    simpl. by rewrite Hc, (IH Hx).
Qed.

Lemma split_join sep l :
  l ≠ [] → Forall (λ e, PyStr.contains sep e = false) l →
  PyStr.split sep (PyStr.join (String sep "") l) = l.
Proof.
  intros Hne Hl. induction Hl as [|x l Hx Hl IH]; [done|].
  destruct l as [|y l]; [by apply split_single|].
  change (PyStr.join (String sep "") (x :: y :: l))
    with (x +:+ String sep (PyStr.join (String sep "") (y :: l))).
  rewrite split_app_sep by done. by rewrite IH.
Qed.

(** X6. A list of entries that are not empty, have no blank at either end
    and hold no comma is read back from its comma-separated text as it
    is: this is the format of [ALLOWED_DIRECTORIES] and
    [ALLOWED_EXTENSIONS]. *)
Theorem parse_list_join l :
  Forall (λ e, e ≠ "" ∧ PyStr.strip e = e ∧ PyStr.contains ","%char e = false) l →
  parse_list (PyStr.join "," l) = l.
Proof.
  intros Hl. destruct l as [|x l]; [done|].
  unfold parse_list. rewrite split_join; [|done|].
  - induction Hl as [|e l' (Hne & Hstrip & _) _ IH]; [done|].
    cbn [List.filter]. unfold nonempty at 1.
    rewrite Hstrip, bool_decide_eq_false_2 by done.
    cbn [negb]. rewrite fmap_cons, Hstrip. by f_equal.
  - eapply Forall_impl; [done|]. by intros e (_ & _ & ?).
Qed.

Lemma parse_list_join_witness :
  parse_list (PyStr.join "," ["/srv/my files"; "data"; ".txt"])
  = ["/srv/my files"; "data"; ".txt"].
Proof.
  apply parse_list_join.
  repeat (constructor; [by vm_compute|]). constructor.
Defined.

(** ** Reading a file *)

Lemma is_file_follow w p :
  FS.is_file w p = true → ∃ data mtime, FS.follow w p = Some (File data mtime).
Proof.
  unfold FS.is_file, FS.stat. destruct (FS.follow w p) as [[data mtime| |]|]; simpl;
    [by eauto|done..].
Qed.


(** ** Listing a directory *)


Lemma is_path_allowed_configured w c d :
  d ∈ allowed_directories c → is_path_allowed w d c = true.
Proof. intros Hd. apply is_path_allowed_iff. by exists d. Qed.



(** ** What is listed *)

Lemma is_file_size w p st :
  FS.is_file w p = true → FS.stat w p = Some st → 0 ≤ st_size st.
Proof.
  intros (data & mtime & Hfollow)%is_file_follow.
  destruct (follow_file _ _ _ _ Hfollow) as (-> & _). intros [= <-]. simpl. lia.
Qed.

(** The facts on an entry of a listing, in one place. *)
Lemma listed_entry w directory_path allowed reports total d files count e :
  lf_list_files w directory_path = Ok (Listing allowed reports total) →
  DirFiles d files count ∈ reports →
  e ∈ files →
  ∃ c rel st,
    load_config w = Ok c ∧ count = length files ∧
    FS.is_dir w (PurePath.Path d) = true ∧
    FS.is_file w (PurePath.joinparts (PurePath.Path d) rel) = true ∧
    is_file_allowed w (PurePath.joinparts (PurePath.Path d) rel) c = true ∧
    FS.stat w (PurePath.joinparts (PurePath.Path d) rel) = Some st ∧
    e = entry_of (PurePath.joinparts (PurePath.Path d) rel) (mkPath false rel) st.
Proof.
  intros Hlist Hreport He.
  apply lf_list_files_listing in Hlist as (c & scanned & Hc & _ & -> & _ & _).
  apply list_elem_of_fmap in Hreport as (dir_path & Hscan & _). symmetry in Hscan.
  destruct (scan_directory_files _ _ _ _ _ _ Hscan) as (-> & -> & Hdir).
  destruct (scan_directory_is_dir w c dir_path Hdir) as (files' & Hscan' & Hfiles).
  rewrite Hscan' in Hscan. injection Hscan as ->.
  destruct (Hfiles e He) as (rel & st & _ & ?). by exists c, rel, st.
Qed.

(** X10. Every entry of a listing is within the policy: its size is at
    most [max_file_size], its suffix in lower case is in
    [allowed_extensions] unless that list is empty; and the count of a
    report is the number of its entries. *)
Theorem listed_files_within_policy
    w directory_path allowed reports total d files count e :
  lf_list_files w directory_path = Ok (Listing allowed reports total) →
  DirFiles d files count ∈ reports →
  e ∈ files →
  ∃ c, load_config w = Ok c ∧
       count = length files ∧
       0 ≤ FileEntry.size e ≤ max_file_size c ∧
       (allowed_extensions c = [] ∨
        PyStr.lower (FileEntry.extension e) ∈ allowed_extensions c).
Proof.
  intros Hlist Hreport He.
  destruct (listed_entry _ _ _ _ _ _ _ _ _ Hlist Hreport He)
    as (c & rel & st & Hc & Hcount & _ & Hfile & Hallowed & Hst & ->).
  exists c. split_and!; try done; simpl.
  - by eapply is_file_size.
  - destruct (is_file_allowed_stat _ _ _ Hallowed) as (st' & Hst' & ?). congruence.
  - by eapply is_file_allowed_extension.
Qed.

Lemma listed_files_within_policy_witness :
  ∃ c, load_config (demo ∅) = Ok c ∧
       1%nat = 1%nat ∧
       0 ≤ 1 ≤ max_file_size c ∧
       (allowed_extensions c = [] ∨ PyStr.lower ".txt" ∈ allowed_extensions c).
Proof.
  apply (listed_files_within_policy (demo ∅) "data"
           ["/allowed"; "data"; "/nonexistent"]
           [DirFiles "data" [FileEntry.mk "a.txt" "data/a.txt" "a.txt" 1 18 ".txt"] 1]
           1%nat "data" [FileEntry.mk "a.txt" "data/a.txt" "a.txt" 1 18 ".txt"] 1%nat
           (FileEntry.mk "a.txt" "data/a.txt" "a.txt" 1 18 ".txt")).
  - vm_compute. reflexivity.
  - left.
  - left.
Defined.

Lemma lookup_path_snoc n init nm m :
  FS.lookup_path n (init ++ [nm]) = Some m →
  ∃ size mtime es,
    FS.lookup_path n init = Some (Dir size mtime es) ∧ FS.entry_lookup nm es = Some m.
Proof.
  revert n. induction init as [|s init IH]; intros n; simpl.
  - destruct n as [|size mtime es|]; [done| |done].
    destruct (FS.entry_lookup nm es) eqn:E; [|done]. intros [= <-]. eauto.
  - destruct n as [|size mtime es|]; [done| |done].
    destruct (FS.entry_lookup s es); [apply IH|done].
Qed.

Lemma iterate_directories_child base s c es x :
  (s, c) ∈ es → x ∈ FS.iterate_directories c (base ++ [s]) →
  x ∈ FS.iterate_directories (Dir 0 0 es) base.
Proof.
  intros Hs Hx. simpl. right.
  induction es as [|[nm c'] es IH]; [by apply elem_of_nil in Hs|].
  apply elem_of_app. apply elem_of_cons in Hs as [[= <- <-]|Hs]; [by left|right; auto].
Qed.

(** The recursive wildcard visits every directory that is reached from the
    starting one through directories. *)
Lemma iterate_directories_lookup init :
  ∀ n base size mtime es,
    FS.lookup_path n init = Some (Dir size mtime es) →
    (base ++ init, es) ∈ FS.iterate_directories n base.
Proof.
  induction init as [|s init IH]; intros n base size mtime es; simpl.
  - intros [= ->]. rewrite app_nil_r. left.
  - destruct n as [|size0 mtime0 es0|]; [done| |done].
    destruct (FS.entry_lookup s es0) as [c|] eqn:E; [|done]. intros Hc.
    apply entry_lookup_elem in E.
    apply (iterate_directories_child base s c es0); [done|].
    rewrite (assoc_L (++) base [s] init : base ++ s :: init = (base ++ [s]) ++ init).
    by eapply IH.
Qed.

Lemma rglob_rel_lookup n rel :
  rel ≠ [] → is_Some (FS.lookup_path n rel) → rel ∈ FS.rglob_rel n.
Proof.
  intros Hrel [m Hm].
  destruct (exists_last Hrel) as (init & nm & ->).
  apply lookup_path_snoc in Hm as (size & mtime & es & Hinit & Hnm).
  unfold FS.rglob_rel. apply list_elem_of_bind. exists (init, es). split.
  - apply entry_lookup_elem in Hnm. by apply (list_elem_of_fmap_2' _ _ (nm, m)).
  - by apply (iterate_directories_lookup init n [] size mtime es).
Qed.

Lemma collect_files_complete w c path rels files rel st :
  collect_files w c path (PurePath.joinparts path <$> rels) = Ok files →
  rel ∈ rels →
  FS.is_file w (PurePath.joinparts path rel) = true →
  is_file_allowed w (PurePath.joinparts path rel) c = true →
  FS.stat w (PurePath.joinparts path rel) = Some st →
  entry_of (PurePath.joinparts path rel) (mkPath false rel) st ∈ files.
Proof.
  intros Hcollect Hrel Hfile Hallowed Hst. revert files Hcollect.
  induction rels as [|r rels IH]; intros files; [by apply elem_of_nil in Hrel|].
  rewrite fmap_cons. cbn [collect_files].
  destruct (collect_files_children w c path rels) as (rest & Hrest & _).
  rewrite file_info_child, Hrest.
  apply elem_of_cons in Hrel as [<-|Hrel].
  - rewrite Hfile, Hallowed, Hst. simpl. intros [= <-]. left.
  - destruct (FS.is_file w _ && is_file_allowed w _ c); simpl; intros [= <-].
    + apply elem_of_app. right. by apply IH.
    + by apply IH.
Qed.

(** X11. The listing of a directory leaves out no file that is within the
    policy: a regular file that passes [is_file_allowed] and whose path
    under the directory goes through directories of the tree only (no
    link on the way) has its entry in the report. *)
Theorem listing_is_complete w c dir_path n rel :
  FS.follow w (PurePath.Path dir_path) = Some n →
  rel ≠ [] →
  is_Some (FS.lookup_path n rel) →
  FS.is_file w (PurePath.joinparts (PurePath.Path dir_path) rel) = true →
  is_file_allowed w (PurePath.joinparts (PurePath.Path dir_path) rel) c = true →
  ∃ files st,
    scan_directory w c dir_path = DirFiles dir_path files (length files) ∧
    FS.stat w (PurePath.joinparts (PurePath.Path dir_path) rel) = Some st ∧
    entry_of (PurePath.joinparts (PurePath.Path dir_path) rel) (mkPath false rel) st
      ∈ files.
Proof.
  intros Hfollow Hrel Hlookup Hfile Hallowed.
  assert (FS.is_dir w (PurePath.Path dir_path) = true) as Hdir.
  { unfold FS.is_dir, FS.stat. rewrite Hfollow. simpl.
    destruct rel as [|s rel]; [done|]. destruct Hlookup as [m Hm].
    by destruct n. }
  destruct (is_file_allowed_stat _ _ _ Hallowed) as (st & Hst & _).
  unfold scan_directory. rewrite (is_dir_exists _ _ Hdir), Hdir. simpl.
  unfold FS.rglob. rewrite Hfollow.
  destruct (collect_files_children w c (PurePath.Path dir_path) (FS.rglob_rel n))
    as (files & Hfiles & _).
  rewrite Hfiles. exists files, st. split_and!; [done..|].
  eapply collect_files_complete; [done| |done..]. by apply rglob_rel_lookup.
Qed.

Lemma listing_is_complete_witness :
  ∃ files st,
    scan_directory (demo ∅) (mkConfig ["/allowed"] 1000 [".md"]) "/allowed"
    = DirFiles "/allowed" files (length files) ∧
    FS.stat (demo ∅) (PurePath.Path "/allowed/sub/b.md") = Some st ∧
    entry_of (PurePath.Path "/allowed/sub/b.md") (mkPath false ["sub"; "b.md"]) st
      ∈ files.
Proof.
  apply (listing_is_complete (demo ∅) (mkConfig ["/allowed"] 1000 [".md"]) "/allowed"
           (Dir 4096 0
              [("notes.txt", text_file "abc" 11);
               ("crlf.txt", File [x61; x0d; x0a; x62] 12);
               ("blob.txt", File [xff; xfe; x00] 13);
               ("link.txt", Symlink "/secret/key.txt");
               ("sub", Dir 4096 0 [("b.md", text_file "# b" 14)])])
           ["sub"; "b.md"]).
  - vm_compute. reflexivity.
  - discriminate.
  - vm_compute. by eexists.
  - vm_compute. reflexivity.
  - vm_compute. reflexivity.
Defined.

(** ** The text of a file *)

Lemma byte_of_to_N b : byte_of (Byte.to_N b) = b.
Proof. unfold byte_of. by rewrite Byte.of_to_N. Qed.

Lemma cont_Some b c :
  Codec.cont b = Some c → (128 ≤ Byte.to_N b ≤ 191)%N ∧ c = (Byte.to_N b - 128)%N.
Proof.
  unfold Codec.cont.
  destruct (_ && _) eqn:E; [|done]. intros [= <-].
  apply andb_true_iff in E as [?%N.leb_le ?%N.leb_le]. done.
Qed.

(** The test [cp <? n] of the encoder is settled by arithmetic. *)
Local Ltac settle_ltb :=
  repeat match goal with
         | |- context [(?a <? ?b)%N] =>
             first [ destruct (N.ltb_spec a b); [|exfalso; div_lia]
                   | destruct (N.ltb_spec a b); [exfalso; div_lia|] ]
         end.

(** The byte [b] is put back for the number that equals its value. *)
Local Ltac byte_of_back b :=
  match goal with
  | |- context [byte_of ?n] =>
      lazymatch n with
      | Byte.to_N _ => fail
      | _ => replace n with (Byte.to_N b) by div_lia
      end
  end.

(** One step of the decoder takes the encoding of a code point off the
    front of the bytes. *)
Lemma utf8_decode_cons b0 r0 cps :
  Codec.utf8_decode (b0 :: r0) = Some cps →
  ∃ cp rest cps',
    cps = cp :: cps' ∧ b0 :: r0 = utf8_encode_point cp ++ rest ∧
    Codec.utf8_decode rest = Some cps'.
Proof.
  pose proof (Byte.to_N_bounded b0) as Hb0. cbn [Codec.utf8_decode].
  destruct (N.ltb_spec (Byte.to_N b0) 128) as [Hone|Hone].
  { destruct (Codec.utf8_decode r0) as [cps'|] eqn:E; [|done]. intros [= <-].
    exists (Byte.to_N b0), r0, cps'. split_and!; [done| |done].
    unfold utf8_encode_point. settle_ltb. by rewrite byte_of_to_N. }
  destruct ((194 <=? Byte.to_N b0) && (Byte.to_N b0 <=? 223))%N eqn:Htwo.
  { apply andb_true_iff in Htwo as [?%N.leb_le ?%N.leb_le].
    destruct r0 as [|b1 r1]; [done|].
    destruct (Codec.cont b1) as [c1|] eqn:E1; [|done].
    apply cont_Some in E1 as [? ->].
    destruct (Codec.utf8_decode r1) as [cps'|] eqn:E; [|done]. intros [= <-].
    eexists _, r1, cps'. split_and!; [done| |done].
    unfold utf8_encode_point. settle_ltb.
    byte_of_back b0. byte_of_back b1. by rewrite !byte_of_to_N. }
  destruct ((224 <=? Byte.to_N b0) && (Byte.to_N b0 <=? 239))%N eqn:Hthree.
  { apply andb_true_iff in Hthree as [?%N.leb_le ?%N.leb_le].
    destruct r0 as [|b1 [|b2 r2]]; [done..|].
    destruct (Codec.cont b1) as [c1|] eqn:E1; [|done].
    destruct (Codec.cont b2) as [c2|] eqn:E2; [|done].
    apply cont_Some in E1 as [? ->]. apply cont_Some in E2 as [? ->].
    match goal with
    | |- (if ?b then _ else None) = _ → _ => destruct b eqn:Hscalar; [|done]
    end.
    apply andb_true_iff in Hscalar as [?%N.leb_le _].
    destruct (Codec.utf8_decode r2) as [cps'|] eqn:E; [|done]. intros [= <-].
    eexists _, r2, cps'. split_and!; [done| |done].
    unfold utf8_encode_point. settle_ltb.
    byte_of_back b0. byte_of_back b1. byte_of_back b2. by rewrite !byte_of_to_N. }
  destruct ((240 <=? Byte.to_N b0) && (Byte.to_N b0 <=? 244))%N eqn:Hfour; [|done].
  apply andb_true_iff in Hfour as [?%N.leb_le ?%N.leb_le].
  destruct r0 as [|b1 [|b2 [|b3 r3]]]; [done..|].
  destruct (Codec.cont b1) as [c1|] eqn:E1; [|done].
  destruct (Codec.cont b2) as [c2|] eqn:E2; [|done].
  destruct (Codec.cont b3) as [c3|] eqn:E3; [|done].
  apply cont_Some in E1 as [? ->]. apply cont_Some in E2 as [? ->].
  apply cont_Some in E3 as [? ->].
  match goal with
  | |- (if ?b then _ else None) = _ → _ => destruct b eqn:Hplane; [|done]
  end.
  apply andb_true_iff in Hplane as [?%N.leb_le ?%N.leb_le].
  destruct (Codec.utf8_decode r3) as [cps'|] eqn:E; [|done]. intros [= <-].
  eexists _, r3, cps'. split_and!; [done| |done].
  unfold utf8_encode_point. settle_ltb.
  byte_of_back b0. byte_of_back b1. byte_of_back b2. byte_of_back b3.
  by rewrite !byte_of_to_N.
Qed.

(** Encoding undoes decoding. *)
Lemma utf8_encode_decode cps :
  ∀ bs, Codec.utf8_decode bs = Some cps → utf8_encode cps = bs.
Proof.
  induction cps as [|cp cps IH]; intros [|b0 r0] Hbs; try done.
  - by apply utf8_decode_cons in Hbs as (? & ? & ? & ? & _).
  - apply utf8_decode_cons in Hbs as (cp' & rest & cps' & [= <- <-] & -> & Hrest).
    unfold utf8_encode. cbn [mbind list_bind]. f_equal. by apply IH.
Qed.

Lemma utf8_encode_elem cps cp b :
  cp ∈ cps → b ∈ utf8_encode_point cp → b ∈ utf8_encode cps.
Proof. intros Hcp Hb. unfold utf8_encode. apply list_elem_of_bind. eauto. Qed.

(** X12. The text returned for a UTF-8 file that holds no CR byte loses
    nothing: encoded again in UTF-8 it is the file, byte for byte; and the
    size in the result is the number of those bytes. *)
Theorem text_content_encodes_to_the_file w file_path c data mtime text :
  load_config w = Ok c →
  allowed_directories c ≠ [] →
  is_path_allowed w file_path c = true →
  FS.follow w (PurePath.Path file_path) = Some (File data mtime) →
  is_file_allowed w (PurePath.Path file_path) c = true →
  Codec.utf8_decode data = Some text →
  x0d ∉ data →
  ∃ file,
    lf_read_file w file_path = Ok (ReadOk file) ∧
    FileContent.content_type file = "text" ∧
    utf8_encode (FileContent.content file) = data ∧
    FileContent.size file = Z.of_nat (length data).
Proof.
  intros Hc Hne Hpath Hfollow Hfile Htext Hcr.
  eexists. split; [by apply (lf_read_file_regular w file_path c data mtime)|].
  unfold Codec.read_text. rewrite Htext. simpl. split_and!; [done| |done].
  pose proof (utf8_encode_decode _ _ Htext) as Hdata.
  rewrite translate_newlines_id; [done|].
  apply not_elem_of_cr. intros Hin. apply Hcr. rewrite <-Hdata.
  apply (utf8_encode_elem text 13%N); [done|]. left.
Qed.

Lemma text_content_encodes_to_the_file_witness :
  ∃ file,
    lf_read_file (demo ∅) "/allowed/sub/b.md" = Ok (ReadOk file) ∧
    FileContent.content_type file = "text" ∧
    utf8_encode (FileContent.content file) = [x23; x20; x62] ∧
    FileContent.size file = 3.
Proof.
  apply (text_content_encodes_to_the_file (demo ∅) "/allowed/sub/b.md"
           (mkConfig ["/allowed"; "data"; "/nonexistent"] 1000 [".txt"; ".md"])
           [x23; x20; x62] 14 [35; 32; 98]%N).
  - vm_compute. reflexivity.
  - discriminate.
  - vm_compute. reflexivity.
  - vm_compute. reflexivity.
  - vm_compute. reflexivity.
  - vm_compute. reflexivity.
  - intros Hin.
    repeat (apply elem_of_cons in Hin as [Hin|Hin]; [discriminate Hin|]).
    by apply elem_of_nil in Hin.
Defined.

(** ** The guard and the list of directories *)



(** ** A negative limit *)

Lemma lf_read_file_inv w file_path file :
  lf_read_file w file_path = Ok (ReadOk file) →
  ∃ c, load_config w = Ok c ∧
       FS.is_file w (PurePath.Path file_path) = true ∧
       is_file_allowed w (PurePath.Path file_path) c = true.
Proof.
  unfold lf_read_file. destruct (load_config w) as [c|] eqn:Hc; simpl; [|done].
  case_bool_decide; [done|].
  destruct (is_path_allowed w file_path c); simpl; [|done].
  destruct (FS.exists_ w _); simpl; [|done].
  destruct (FS.is_file w _) eqn:Hfile; simpl; [|done].
  destruct (is_file_allowed w _ c) eqn:Hallowed; simpl; [|done].
  intros _. by exists c.
Qed.

(** X14. The loader takes a negative [MAX_FILE_SIZE] as it is, and under
    a negative limit nothing is served: every report of a listing has no
    file, and no read returns a content. *)
Theorem negative_limit_serves_nothing w c :
  load_config w = Ok c →
  max_file_size c < 0 →
  (∀ arg allowed reports total d files count,
     lf_list_files w arg = Ok (Listing allowed reports total) →
     DirFiles d files count ∈ reports →
     files = [] ∧ count = 0%nat) ∧
  (∀ file_path file, lf_read_file w file_path ≠ Ok (ReadOk file)).
Proof.
  intros Hc Hneg.
  assert (∀ p, FS.is_file w p = true → is_file_allowed w p c = true → False) as Hnone.
  { intros p Hfile (st & Hst & Hsize)%is_file_allowed_stat.
    pose proof (is_file_size _ _ _ Hfile Hst). lia. }
  split.
  - intros arg allowed reports total d files count Hlist Hreport.
    destruct files as [|e files].
    + apply lf_list_files_listing in Hlist as (c' & scanned & _ & _ & -> & _ & _).
      apply list_elem_of_fmap in Hreport as (dir_path & Hscan & _). symmetry in Hscan.
      by destruct (scan_directory_files _ _ _ _ _ _ Hscan) as (_ & -> & _).
    + destruct (listed_entry _ _ _ _ _ _ _ _ e Hlist Hreport)
        as (c' & rel & st & Hc' & _ & _ & Hfile & Hallowed & _); [left|].
      rewrite Hc in Hc'. injection Hc' as <-. by destruct (Hnone _ Hfile Hallowed).
  - intros file_path file (c' & Hc' & Hfile & Hallowed)%lf_read_file_inv.
    rewrite Hc in Hc'. injection Hc' as <-. by apply (Hnone _ Hfile Hallowed).
Qed.

Lemma negative_limit_serves_nothing_witness :
  load_config (demo {["MAX_FILE_SIZE" := "-1"]})
  = Ok (mkConfig ["/allowed"; "data"; "/nonexistent"] (-1) [".txt"; ".md"]) ∧
  ∀ file, lf_read_file (demo {["MAX_FILE_SIZE" := "-1"]}) "/allowed/notes.txt"
          ≠ Ok (ReadOk file).
Proof.
  split; [vm_compute; reflexivity|].
  destruct (negative_limit_serves_nothing (demo {["MAX_FILE_SIZE" := "-1"]})
              (mkConfig ["/allowed"; "data"; "/nonexistent"] (-1) [".txt"; ".md"]))
    as [_ Hread].
  - vm_compute. reflexivity.
  - vm_compute. reflexivity.
  - intros file. apply Hread.
Defined.

(** ** The summary and the start of the program *)

(** X15. [lf_get_config] returns the three settings as [load_config]
    gives them, and its status is [configured] exactly when the list of
    directories is not empty, which is exactly when [lf_list_files]
    without argument returns a listing rather than the error of a missing
    configuration. *)
Theorem lf_get_config_status w summary :
  lf_get_config w = Ok summary →
  load_config w
  = Ok (mkConfig (summary_directories summary) (summary_max_file_size summary)
          (summary_extensions summary)) ∧
  (status summary = "configured" ↔ summary_directories summary ≠ []) ∧
  (status summary = "not_configured" ↔ summary_directories summary = []) ∧
  (status summary = "configured" ↔
   ∃ reports total,
     lf_list_files w "" = Ok (Listing (summary_directories summary) reports total)) ∧
  (status summary = "not_configured" ↔
   lf_list_files w "" = Ok (ListError not_configured)).
Proof.
  unfold lf_get_config. destruct (load_config w) as [c|] eqn:Hc; simpl; [|done].
  intros [= <-]. simpl. rewrite (lf_list_files_cases _ _ _ Hc).
  destruct c as [dirs size exts]. simpl.
  case_bool_decide as Hdirs; simpl; (split_and!; [done|..]);
    (split; intros H); try done; try congruence;
    try (by destruct H as (? & ? & [=])); by do 2 eexists.
Qed.

Lemma lf_get_config_status_witness :
  lf_list_files (bare ∅) "" = Ok (ListError not_configured) ∧
  ∃ reports total,
    lf_list_files (demo ∅) ""
    = Ok (Listing ["/allowed"; "data"; "/nonexistent"] reports total).
Proof.
  split.
  - apply (lf_get_config_status (bare ∅)
             (mkSummary [] 10485760 (allowed_extensions default_config)
                "not_configured")).
    + vm_compute. reflexivity.
    + reflexivity.
  - apply (lf_get_config_status (demo ∅)
             (mkSummary ["/allowed"; "data"; "/nonexistent"] 1000 [".txt"; ".md"]
                "configured")).
    + vm_compute. reflexivity.
    + reflexivity.
Defined.



(** ** Reading what is listed *)

Lemma proper_tree_entries size mtime es nm c :
  proper_tree (Dir size mtime es) = true → (nm, c) ∈ es →
  proper_name nm = true ∧ proper_tree c = true.
Proof.
  simpl. induction es as [|[nm' c'] es IH]; [by intros _ ?%elem_of_nil|].
  rewrite !andb_true_iff. intros [[??] ?] [[= -> ->]|?]%elem_of_cons; auto.
Qed.

Lemma proper_lookup_path n segs m :
  proper_tree n = true → FS.lookup_path n segs = Some m → proper_tree m = true.
Proof.
  revert n. induction segs as [|s segs IH]; intros n Hn; simpl.
  - by intros [= <-].
  - destruct n as [|size mtime es|]; [done| |done].
    destruct (FS.entry_lookup s es) as [c|] eqn:E; [|done].
    apply entry_lookup_elem in E. apply IH. by eapply proper_tree_entries.
Qed.

Lemma iterate_directories_proper n :
  ∀ base d es,
    proper_tree n = true →
    Forall (λ s, proper_name s = true) base →
    (d, es) ∈ FS.iterate_directories n base →
    Forall (λ s, proper_name s = true) d ∧
    Forall (λ e, proper_name e.1 = true) es.
Proof.
  induction n as [| size mtime es0 IH |] using node_nested_ind;
    intros base d es Hn Hbase; simpl;
    [by intros ?%elem_of_nil| |by intros ?%elem_of_nil].
  pose proof (proper_tree_entries size mtime es0) as Hentries.
  specialize (λ nm c, Hentries nm c Hn). clear Hn.
  intros [[= -> ->]|Hin]%elem_of_cons.
  - split; [done|]. apply Forall_forall. intros [nm c] Hc. by apply (Hentries nm c).
  - induction IH as [|[nm c] es' IHc _ IHes]; [by apply elem_of_nil in Hin|].
    apply elem_of_app in Hin as [Hin|Hin].
    + destruct (Hentries nm c) as [Hnm Hc]; [left|].
      apply (IHc (base ++ [nm])); [done| |done].
      apply Forall_app. split; [done|]. by constructor.
    + apply IHes; [|done]. intros nm' c' Hc'. apply Hentries. by right.
Qed.

Lemma rglob_rel_proper n rel :
  proper_tree n = true → rel ∈ FS.rglob_rel n →
  Forall (λ s, proper_name s = true) rel.
Proof.
  intros Hn. unfold FS.rglob_rel.
  intros ([d es] & Hrel & Hin)%list_elem_of_bind.
  apply list_elem_of_fmap in Hrel as (x & -> & Hx).
  apply iterate_directories_proper in Hin as [Hd Hes]; [|done|constructor].
  apply Forall_app. split; [done|]. constructor; [|constructor].
  by apply (proj1 (Forall_forall _ _) Hes).
Qed.

Lemma components_proper s :
  Forall (λ x, proper_name x = true) (PurePath.components s).
Proof.
  apply Forall_forall. intros x Hx. unfold proper_name.
  rewrite (components_valid s x Hx). simpl.
  unfold PurePath.components in Hx. by apply list_elem_of_In, filter_In in Hx as [_ ?].
Qed.

Lemma components_join l :
  Forall (λ x, proper_name x = true) l →
  PurePath.components (PyStr.join "/" l) = l ∧
  PurePath.components ("/" +:+ PyStr.join "/" l) = l.
Proof.
  intros Hl.
  assert (List.filter PurePath.is_component l = l) as Hfilter.
  { induction Hl as [|x l Hx _ IH]; [done|]. simpl.
    apply andb_true_iff in Hx as [_ ->]. by rewrite IH. }
  assert (PurePath.components (PyStr.join "/" l) = l) as Hjoin.
  { destruct l as [|x l]; [done|]. unfold PurePath.components.
    rewrite (split_join "/"%char); [done..|].
    eapply Forall_impl; [done|]. unfold proper_name, valid_name.
    intros y [[_ Hy%negb_true_iff]%andb_true_iff _]%andb_true_iff. done. }
  split; [done|].
  change ("/" +:+ PyStr.join "/" l) with (String "/"%char (PyStr.join "/" l)).
  unfold PurePath.components in *. simpl.
  by destruct (PyStr.split "/"%char (PyStr.join "/" l)).
Qed.

(** [Path] reads back the text of a path whose components are names. *)
Lemma Path_str p :
  Forall (λ x, proper_name x = true) (parts p) → PurePath.Path (PurePath.str p) = p.
Proof.
  intros Hp. destruct (components_join _ Hp) as [Hrel Habs].
  destruct p as [[] l]; unfold PurePath.Path, PurePath.str; simpl in *.
  - by rewrite Habs.
  - destruct l as [|x l]; [done|]. rewrite Hrel. f_equal.
    apply (str_startswith (mkPath false (x :: l)) x l); [done|].
    apply Forall_cons in Hp as [Hx _]. by apply andb_true_iff in Hx as [? _].
Qed.

(** The entries of a report in a tree whose names are proper. *)
Lemma scan_directory_proper w c dir_path :
  proper_tree (fs_root w) = true →
  FS.is_dir w (PurePath.Path dir_path) = true →
  ∃ files,
    scan_directory w c dir_path = DirFiles dir_path files (length files) ∧
    ∀ e, e ∈ files →
      ∃ rel st,
        Forall (λ x, proper_name x = true) rel ∧
        FS.is_file w (PurePath.joinparts (PurePath.Path dir_path) rel) = true ∧
        is_file_allowed w (PurePath.joinparts (PurePath.Path dir_path) rel) c = true ∧
        FS.stat w (PurePath.joinparts (PurePath.Path dir_path) rel) = Some st ∧
        e = entry_of (PurePath.joinparts (PurePath.Path dir_path) rel)
              (mkPath false rel) st.
Proof.
  intros Hproper Hdir. unfold scan_directory.
  rewrite (is_dir_exists _ _ Hdir), Hdir. simpl. unfold FS.rglob.
  destruct (FS.follow w (PurePath.Path dir_path)) as [n|] eqn:Hn.
  - destruct (collect_files_children w c (PurePath.Path dir_path) (FS.rglob_rel n))
      as (files & -> & Hfiles).
    exists files. split; [done|]. intros e He.
    destruct (Hfiles e He) as (rel & st & Hrel & ?). exists rel, st. split; [|done].
    apply (rglob_rel_proper n); [|done]. unfold FS.follow in Hn.
    destruct (FS.namei _ _ _ _); simpl in Hn; [|done].
    by eapply proper_lookup_path.
  - exists []. simpl. split; [done|]. by intros ? ?%elem_of_nil.
Qed.

(** X17. In a tree whose names are proper, the path that a listing gives
    for a file can be handed to [lf_read_file]: when [is_path_allowed]
    accepts that path the file is read, under the same path, name, size,
    time and suffix as in the listing; when it does not (the entry is a
    link that leads out of the allowed directories) the read is refused as
    not allowed.  No other answer is possible. *)
Theorem listed_path_is_read_when_allowed
    w arg allowed reports total d files count e c :
  proper_tree (fs_root w) = true →
  load_config w = Ok c →
  lf_list_files w arg = Ok (Listing allowed reports total) →
  DirFiles d files count ∈ reports →
  e ∈ files →
  if is_path_allowed w (FileEntry.path e) c then
    ∃ file,
      lf_read_file w (FileEntry.path e) = Ok (ReadOk file) ∧
      FileContent.file_path file = FileEntry.path e ∧
      FileContent.name file = FileEntry.name e ∧
      FileContent.size file = FileEntry.size e ∧
      FileContent.modified file = FileEntry.modified e ∧
      FileContent.extension file = FileEntry.extension e
  else
    lf_read_file w (FileEntry.path e)
    = Ok (ReadError ("File '" +:+ FileEntry.path e
                       +:+ "' is not in allowed directories.")).
Proof.
  intros Hproper Hc Hlist Hreport He.
  assert (allowed_directories c ≠ []) as Hne.
  { intros Hnil. rewrite (lf_list_files_cases _ _ _ Hc), Hnil in Hlist. done. }
  apply lf_list_files_listing in Hlist as (c' & scanned & Hc' & _ & -> & _ & _).
  rewrite Hc in Hc'. injection Hc' as <-.
  apply list_elem_of_fmap in Hreport as (dir_path & Hscan & _). symmetry in Hscan.
  destruct (scan_directory_files _ _ _ _ _ _ Hscan) as (-> & _ & Hdir).
  destruct (scan_directory_proper w c dir_path Hproper Hdir) as (files' & Hscan' & Hfiles).
  rewrite Hscan' in Hscan. injection Hscan as -> _.
  destruct (Hfiles e He) as (rel & st & Hrel & Hfile & Hallowed & Hst & ->).
  set (file_path := PurePath.joinparts (PurePath.Path dir_path) rel) in *.
  assert (PurePath.Path (PurePath.str file_path) = file_path) as Hback.
  { apply Path_str. apply Forall_app. split; [apply components_proper|done]. }
  simpl. destruct (is_path_allowed w (PurePath.str file_path) c) eqn:Hpath.
  - destruct (is_file_follow _ _ Hfile) as (data & mtime & Hfollow).
    destruct (follow_file _ _ _ _ Hfollow) as (Hst' & _).
    rewrite Hst in Hst'. injection Hst' as ->.
    eexists. split.
    + apply (lf_read_file_regular w (PurePath.str file_path) c data mtime);
        rewrite ?Hback; done.
    + simpl. by rewrite Hback.
  - unfold lf_read_file. rewrite Hc. simpl.
    by rewrite bool_decide_eq_false_2, Hpath.
Qed.

Lemma listed_path_is_read_when_allowed_witness :
  (∃ file,
     lf_read_file (demo ∅) "data/a.txt" = Ok (ReadOk file) ∧
     FileContent.name file = "a.txt" ∧ FileContent.size file = 1) ∧
  lf_read_file (bare {["ALLOWED_DIRECTORIES" := "/allowed"]}) "/allowed/link.txt"
  = Ok (ReadError "File '/allowed/link.txt' is not in allowed directories.").
Proof.
  split.
  - destruct (listed_path_is_read_when_allowed (demo ∅) "data"
                ["/allowed"; "data"; "/nonexistent"]
                [DirFiles "data" [FileEntry.mk "a.txt" "data/a.txt" "a.txt" 1 18 ".txt"] 1]
                1%nat "data" [FileEntry.mk "a.txt" "data/a.txt" "a.txt" 1 18 ".txt"]
                1%nat (FileEntry.mk "a.txt" "data/a.txt" "a.txt" 1 18 ".txt")
                (mkConfig ["/allowed"; "data"; "/nonexistent"] 1000 [".txt"; ".md"]))
      as (file & Hread & _ & Hname & Hsize & _).
    + vm_compute. reflexivity.
    + vm_compute. reflexivity.
    + vm_compute. reflexivity.
    + left.
    + left.
    + exists file. split_and!; [exact Hread|exact Hname|exact Hsize].
  - pose [FileEntry.mk "notes.txt" "/allowed/notes.txt" "notes.txt" 3 11 ".txt";
          FileEntry.mk "crlf.txt" "/allowed/crlf.txt" "crlf.txt" 4 12 ".txt";
          FileEntry.mk "blob.txt" "/allowed/blob.txt" "blob.txt" 3 13 ".txt";
          FileEntry.mk "link.txt" "/allowed/link.txt" "link.txt" 10 16 ".txt";
          FileEntry.mk "b.md" "/allowed/sub/b.md" "sub/b.md" 3 14 ".md"] as entries.
    pose proof (listed_path_is_read_when_allowed
                  (bare {["ALLOWED_DIRECTORIES" := "/allowed"]}) "/allowed"
                  ["/allowed"] [DirFiles "/allowed" entries 5] 1%nat "/allowed"
                  entries 5%nat
                  (FileEntry.mk "link.txt" "/allowed/link.txt" "link.txt" 10 16 ".txt")
                  (mkConfig ["/allowed"] 10485760 (allowed_extensions default_config)))
      as H.
    apply H.
    + vm_compute. reflexivity.
    + vm_compute. reflexivity.
    + vm_compute. reflexivity.
    + left.
    + do 3 right. left.
Defined.

